(** * Indicator computation and multi-criteria ranking engine

    A shallow embedding of the indicator pipeline of the analysis
    framework: the variable resolver and formula evaluator
    ([modules/module1_step_indicators.py]), the experiment aggregator, the
    threshold feasibility checker and the normaliser
    ([modules/module2_experiment_aggregation.py]), and the scoring and
    ranking engine ([modules/module3_ranking.py]).

    Modelling conventions.
    - Python and numpy floating-point numbers are modelled by exact
      rationals ([Qc]); a missing value ([NaN], [pd.NA]) is modelled
      separately ([CNaN] in a cell, [None] in a numeric series).  Infinite
      values are not represented.
    - A pandas [DataFrame] is a list of column names together with a list
      of rows, each row a finite map from column names to cells; rows are
      identified by their position.
    - A Python exception is a value of [exn]; code that may raise returns
      [res A].  [try ... except] blocks become matches on that result.
    - Console output ([print]) and bookkeeping lists that are only printed
      are left out. *)

From Stdlib Require Import QArith Qcanon Qround.
From stdpp Require Import base option list gmap strings numbers sorting.

Set Default Proof Using "Type".

(* ================================================================== *)
(** * Exceptions *)
(* ================================================================== *)

Inductive exn : Type :=
| KeyError | ValueError | TypeError | AttributeError
| ZeroDivisionError | NameError | SyntaxError | IndexError | MergeError
| RuntimeError.

Inductive res (A : Type) : Type :=
| Ok (a : A)
| Raise (e : exn).
Arguments Ok {A} a.
Arguments Raise {A} e.

Global Instance res_ret : MRet res := λ A a, Ok a.
Global Instance res_bind : MBind res := λ A B f m,
  match m with Ok a => f a | Raise e => Raise e end.
Global Instance res_fmap : FMap res := λ A B f m,
  match m with Ok a => Ok (f a) | Raise e => Raise e end.

(** [d[k]] on a Python dict: a missing key raises [KeyError]. *)
Definition key {A} (o : option A) : res A :=
  match o with Some a => Ok a | None => Raise KeyError end.

(** Map a fallible function over a list, stopping at the first exception. *)
Fixpoint traverse {A B} (f : A → res B) (l : list A) : res (list B) :=
  match l with
  | [] => Ok []
  | x :: l' => y ← f x; ys ← traverse f l'; Ok (y :: ys)
  end.

(* ================================================================== *)
(** * Numbers *)
(* ================================================================== *)

Module Num.

Definition half : Qc := Q2Qc (1 # 2).

(** numpy [rint]: the nearest integer, ties to the even one. *)
Definition rint (x : Qc) : Z :=
  let f := Qfloor x in
  match Qccompare (x - Qc_of_Z f) half with
  | Lt => f
  | Gt => (f + 1)%Z
  | Eq => if Z.even f then f else (f + 1)%Z
  end.

Definition pow10 (n : nat) : Qc := Qc_of_Z (10 ^ Z.of_nat n).

(** [round(x, p)] and [Series.round(p)]: scale, round to the nearest
    integer, scale back. *)
Definition round_dec (p : Z) (x : Qc) : Qc :=
  if (0 <=? p)%Z
  then (Qc_of_Z (rint (x * pow10 (Z.to_nat p))) / pow10 (Z.to_nat p))%Qc
  else (Qc_of_Z (rint (x / pow10 (Z.to_nat (- p)))) * pow10 (Z.to_nat (- p)))%Qc.

Definition Qc_abs (x : Qc) : Qc := if decide (0 ≤ x)%Qc then x else (- x)%Qc.

(** A float that may be [NaN]. *)
Abbreviation float := (option Qc) (only parsing).

(** Comparisons with [NaN] are false. *)
Definition float_le (a b : float) : bool :=
  match a, b with
  | Some x, Some y => bool_decide (x ≤ y)%Qc
  | _, _ => false
  end.
Definition float_lt (a b : float) : bool :=
  match a, b with
  | Some x, Some y => bool_decide (x < y)%Qc
  | _, _ => false
  end.

Definition float_sub (a b : float) : float :=
  x ← a; y ← b; Some (x - y)%Qc.
Definition float_mul (a b : float) : float :=
  x ← a; y ← b; Some (x * y)%Qc.
(** Division of floats.  Where the embedded code divides, the divisor is
    never [0]; [Qc] division by [0] gives [0]. *)
Definition float_div (a b : float) : float :=
  x ← a; y ← b; Some (x / y)%Qc.
Definition float_abs (a : float) : float := Qc_abs <$> a.
Definition float_round (p : Z) (a : float) : float := round_dec p <$> a.

(** Python's builtin [min(a, b)]: [a] unless [b < a]. *)
Definition py_min (a b : float) : float := if float_lt b a then b else a.
(** Python's builtin [max(a, b)]: [a] unless [b > a]. *)
Definition py_max (a b : float) : float := if float_lt a b then b else a.

(** [Series.min()] and [Series.max()]: [NaN] entries are skipped; the
    result is [NaN] when nothing is left. *)
Definition series_min (vals : list float) : float :=
  foldr (λ v acc,
           match v, acc with
           | Some x, Some y => Some (if decide (x ≤ y)%Qc then x else y)
           | Some x, None => Some x
           | None, _ => acc
           end) None vals.
Definition series_max (vals : list float) : float :=
  foldr (λ v acc,
           match v, acc with
           | Some x, Some y => Some (if decide (y ≤ x)%Qc then x else y)
           | Some x, None => Some x
           | None, _ => acc
           end) None vals.

(** [Series.sum()]: [NaN] entries are skipped. *)
Definition series_sum (vals : list float) : Qc :=
  foldr (λ v acc, match v with Some x => (x + acc)%Qc | None => acc end) 0%Qc vals.

(** [Series.mean()]: the mean of the entries that are not [NaN]. *)
Definition series_mean (vals : list float) : float :=
  match omap id vals with
  | [] => None
  | xs => Some (series_sum (Some <$> xs) / Qc_of_Z (Z.of_nat (length xs)))%Qc
  end.

End Num.

(* ================================================================== *)
(** * Data frames *)
(* ================================================================== *)

Module Pandas.
Import Num.

Inductive cell : Type :=
  | CNum (q : Qc)
  | CNaN
  | CBool (b : bool)
  | CStr (s : string).

Global Instance cell_eq_dec : EqDecision cell.
Proof. solve_decision. Defined.

Record DataFrame : Type := mkDataFrame {
  columns : list string;
  rows : list (gmap string cell)
}.

(** [pd.DataFrame()] *)
Definition empty_frame : DataFrame := mkDataFrame [] [].

(** [df.empty]: some axis has length 0. *)
Definition df_empty (df : DataFrame) : bool :=
  bool_decide (columns df = []) || bool_decide (rows df = []).

(** [c in df.columns] *)
Definition has_column (df : DataFrame) (c : string) : bool :=
  bool_decide (c ∈ columns df).

Definition cell_at (c : string) (r : gmap string cell) : cell :=
  default CNaN (r !! c).

(** [df[c]] read as a series. *)
Definition get_column (df : DataFrame) (c : string) : res (list cell) :=
  if has_column df c then Ok (cell_at c <$> rows df) else Raise KeyError.

(** The numeric reading of a cell in arithmetic and comparisons.  Only
    float columns are modelled: any other cell stands for an operation
    that raises. *)
Definition as_float (c : cell) : res float :=
  match c with
  | CNum q => Ok (Some q)
  | CNaN => Ok None
  | _ => Raise TypeError
  end.

Definition of_float (v : float) : cell :=
  match v with Some q => CNum q | None => CNaN end.

Definition numeric_column (df : DataFrame) (c : string) : res (list float) :=
  cells ← get_column df c; traverse as_float cells.

Definition add_column (c : string) (cols : list string) : list string :=
  if bool_decide (c ∈ cols) then cols else cols ++ [c].

(** [df[c] = series]: the series is aligned with the rows. *)
Definition set_column (c : string) (vals : list cell) (df : DataFrame) : DataFrame :=
  mkDataFrame (add_column c (columns df))
              (imap (λ i r, <[c := default CNaN (vals !! i)]> r) (rows df)).

(** [df[c] = scalar] *)
Definition set_column_const (c : string) (v : cell) (df : DataFrame) : DataFrame :=
  mkDataFrame (add_column c (columns df)) ((λ r, <[c := v]> r) <$> rows df).

(** An integer cell. *)
Definition nat_cell (n : nat) : cell := CNum (Qc_of_Z (Z.of_nat n)).

(** A boolean mask read from a column. *)
Definition as_bool (c : cell) : res bool :=
  match c with CBool b => Ok b | _ => Raise TypeError end.

Definition bool_column (df : DataFrame) (c : string) : res (list bool) :=
  cells ← get_column df c; traverse as_bool cells.

(** [df[cols].sum(axis=1)] on one row: the sum of the cells that are not
    [NaN]; [cols] may repeat a name. *)
Definition row_sum (cols : list string) (r : gmap string cell) : res Qc :=
  vals ← traverse (λ c, as_float (cell_at c r)) cols; Ok (series_sum vals).

Definition sum_axis1 (df : DataFrame) (cols : list string) : res (list Qc) :=
  traverse (row_sum cols) (rows df).

(** The descending order on scores. *)
Definition score_ge (x y : Qc) : Prop := (y ≤ x)%Qc.
Global Instance score_ge_dec : RelDecision score_ge := λ x y, decide (y ≤ x)%Qc.

(** [Series.rank(ascending=False, method='min')] of one value: its
    position in the descending order of the values that are not [NaN],
    where tied values take the position of the first of them; [NaN] has no
    rank. *)
Definition rank_of (vals : list float) (v : float) : option nat :=
  x ← v;
  (λ p, S p.1) <$> list_find (λ y, y = x) (merge_sort score_ge (omap id vals)).

Definition rank_min_desc (vals : list float) : list (option nat) :=
  rank_of vals <$> vals.

(** [.astype(int)]: raises on a missing value. *)
Definition astype_int (ranks : list (option nat)) : res (list nat) :=
  traverse (λ k, match k with Some n => Ok n | None => Raise ValueError end) ranks.

(** [.astype('Int64')]: a missing value becomes [pd.NA]. *)
Definition int64_cell (k : option nat) : cell :=
  match k with Some n => nat_cell n | None => CNaN end.

End Pandas.

(* ================================================================== *)
(** * Indicator configuration *)
(* ================================================================== *)

(** One entry of [config['indicators']].  A field is [None] when the key
  is absent from the dict. *)
Record Indicator : Type := mkIndicator {
indicator_id : option string;
target_dataframe : option string;
aggregation : option string;
threshold : option Qc;
direction : option string;
weight : option Qc;
category : option string
}.

(** The indicator configuration dict; [indicators] is [None] when the
  ['indicators'] key is absent. *)
Record IndicatorsConfig : Type := mkConfig {
indicators : option (list Indicator)
}.

(* ================================================================== *)
(** * Module 2: aggregation, feasibility, normalisation *)
(* ================================================================== *)

Module module2.
Import Num Pandas.

Definition EXP_ID_COLUMN : string := "exp_id".
Definition THRESHOLD_SUFFIX : string := "_in_threshold".
Definition NORMALIZED_SUFFIX : string := "_normalized".
Definition AGG_SUM : string := "sum".
Definition AGG_AVERAGE : string := "average".
Definition AGGREGATION_PRECISION : Z := 2.

(** ** [aggregate_to_experiment_level] *)

(** The data dictionary threaded through the modules: tables,
    configuration dicts and anything else, under string keys. *)
Inductive DataValue : Type :=
  | DFrame (df : DataFrame)
  | DConfig (cfg : IndicatorsConfig)
  | DOther.

(** A table that must be present and not empty; the surrounding handler
    turns every failure into [RuntimeError]. *)
Definition required_frame (data : gmap string DataValue) (k : string) : res DataFrame :=
  match data !! k with
  | Some (DFrame df) => if df_empty df then Raise RuntimeError else Ok df
  | _ => Raise RuntimeError
  end.

Definition required_indicators (data : gmap string DataValue) : res (list Indicator) :=
  match data !! "indicators" with
  | Some (DConfig cfg) =>
      match indicators cfg with Some inds => Ok inds | None => Raise RuntimeError end
  | _ => Raise RuntimeError
  end.

(** [df[df[EXP_ID_COLUMN].isin(available_exp_ids)]] *)
Definition restrict_to (available_exp_ids : list cell) (df : DataFrame) : DataFrame :=
  mkDataFrame (columns df)
    (filter (λ r, cell_at EXP_ID_COLUMN r ∈ available_exp_ids) (rows df)).

(** Step 1: the design table restricted to the experiments of
    [df_process]; [None] stands for the early [return pd.DataFrame()]. *)
Definition init_experiments (data : gmap string DataValue)
    : res (option (DataFrame * list Indicator)) :=
  doe ← required_frame data "doe";
  df_process ← required_frame data "df_process";
  inds ← required_indicators data;
  exp_ids ← get_column df_process EXP_ID_COLUMN;
  let available_exp_ids := remove_dups exp_ids in
  match available_exp_ids with
  | [] => Ok None
  | _ :: _ =>
      _ ← get_column doe EXP_ID_COLUMN;
      let df_experiments := restrict_to available_exp_ids doe in
      if df_empty df_experiments then Ok None else Ok (Some (df_experiments, inds))
  end.

(** [target_df.groupby(EXP_ID_COLUMN)[ind_id]] reduced with [f]: one
    entry per experiment id of the target table, [NaN] ids left out. *)
Definition groupby_reduce (f : list float → cell) (target_df : DataFrame)
    (ind_id : string) : res (list (cell * cell)) :=
  exp_ids ← get_column target_df EXP_ID_COLUMN;
  traverse
    (λ k, vals ← traverse (λ r, as_float (cell_at ind_id r))
                    (filter (λ r, cell_at EXP_ID_COLUMN r = k) (rows target_df));
          Ok (k, f vals))
    (remove_dups (filter (λ k, k ≠ CNaN) exp_ids)).

(** [target_df.set_index(EXP_ID_COLUMN)[ind_id]]: every row, as it is. *)
Definition set_index_series (target_df : DataFrame) (ind_id : string)
    : res (list (cell * cell)) :=
  _ ← get_column target_df EXP_ID_COLUMN;
  Ok ((λ r, (cell_at EXP_ID_COLUMN r, cell_at ind_id r)) <$> rows target_df).

(** The series [aggregated], by aggregation method. *)
Definition aggregate_series (agg_method : string) (target_df : DataFrame)
    (ind_id : string) : res (list (cell * cell)) :=
  if decide (agg_method = AGG_SUM) then
    groupby_reduce (λ vals, CNum (series_sum vals)) target_df ind_id
  else if decide (agg_method = AGG_AVERAGE ∨ agg_method = "mean") then
    groupby_reduce (λ vals, of_float (series_mean vals)) target_df ind_id
  else
    set_index_series target_df ind_id.

(** The entries of the series under index [k]. *)
Definition matches (k : cell) (aggregated : list (cell * cell)) : list cell :=
  snd <$> filter (λ kv, kv.1 = k) aggregated.

(** The values merged into a left row with key [k]: those of the
    matching entries, or a single [NaN]. *)
Definition matched_values (k : cell) (aggregated : list (cell * cell)) : list cell :=
  match matches k aggregated with
  | [] => [CNaN]
  | vs => vs
  end.

(** [left.merge(aggregated.rename(ind_id).to_frame(), left_on=EXP_ID_COLUMN,
    right_index=True, how='left')]: each left row once per matching entry
    of the series, or once with [NaN] when there is none.  A column of the
    left table already called [ind_id] gets the suffix [_x] and the new
    one [_y]; suffixed names that exist already are refused. *)
Definition merge_left (left : DataFrame) (ind_id : string)
    (aggregated : list (cell * cell)) : res DataFrame :=
  if negb (has_column left EXP_ID_COLUMN) then Raise KeyError
  else
    let expand (new_col : string) (prepare : gmap string cell → gmap string cell) :=
      rows left ≫= (λ r,
        (λ v, <[new_col := v]> (prepare r))
          <$> matched_values (cell_at EXP_ID_COLUMN r) aggregated) in
    if has_column left ind_id then
      if has_column left (ind_id +:+ "_x") || has_column left (ind_id +:+ "_y")
      then Raise MergeError
      else
        Ok (mkDataFrame
              ((λ c, if decide (c = ind_id) then ind_id +:+ "_x" else c) <$> columns left
                 ++ [ind_id +:+ "_y"])
              (expand (ind_id +:+ "_y")
                 (λ r, <[ind_id +:+ "_x" := cell_at ind_id r]> (delete ind_id r))))
    else
      Ok (mkDataFrame (columns left ++ [ind_id]) (expand ind_id (λ r, r))).

(** [df[ind_id] = df[ind_id].fillna(0)] *)
Definition fillna0 (ind_id : string) (df : DataFrame) : DataFrame :=
  mkDataFrame (columns df)
    ((λ r, match cell_at ind_id r with CNaN => <[ind_id := CNum 0%Qc]> r | _ => r end)
       <$> rows df).

(** One loop iteration.  The state is the experiment table and the list
    [missing_indicators]; an indicator without id is recorded as
    ['unknown']. *)
Definition aggregate_step (data : gmap string DataValue)
    (st : DataFrame * list string) (indicator : Indicator) : DataFrame * list string :=
  let '(df_experiments, missing_indicators) := st in
  let missing := missing_indicators ++ [default "unknown" (indicator_id indicator)] in
  match (ind_id ← key (indicator_id indicator);
         target_df_name ← key (target_dataframe indicator);
         agg_method ← key (aggregation indicator);
         Ok (ind_id, target_df_name, agg_method)) with
  | Raise _ => (df_experiments, missing)
  | Ok (ind_id, target_df_name, agg_method) =>
      match data !! target_df_name with
      | None => (df_experiments, missing)
      | Some (DFrame target_df) =>
          if negb (has_column target_df ind_id) then (df_experiments, missing)
          else
            match aggregate_series agg_method target_df ind_id with
            | Raise _ => (df_experiments, missing)
            | Ok aggregated =>
                match merge_left df_experiments ind_id aggregated with
                | Raise _ => (df_experiments, missing)
                | Ok merged =>
                    if has_column merged ind_id
                    then (fillna0 ind_id merged, missing_indicators)
                    else (merged, missing)
                end
            end
      | Some _ => (df_experiments, missing)
      end
  end.

Definition round_cell (c : cell) : cell :=
  match c with CNum q => CNum (round_dec AGGREGATION_PRECISION q) | _ => c end.

(** [df[cols] = df[cols].round(AGGREGATION_PRECISION)] *)
Definition round_columns (cols : list string) (df : DataFrame) : res DataFrame :=
  if forallb (has_column df) cols
  then Ok (mkDataFrame (columns df)
             ((λ r, foldr (λ c r', alter round_cell c r') r cols) <$> rows df))
  else Raise KeyError.

Definition aggregate_to_experiment_level (data : gmap string DataValue) : res DataFrame :=
  init ← init_experiments data;
  match init with
  | None => Ok empty_frame
  | Some (df_experiments, inds) =>
      let '(df, missing_indicators) :=
        foldl (aggregate_step data) (df_experiments, []) inds in
      ids ← traverse (λ ind, key (indicator_id ind)) inds;
      let indicator_cols := filter (λ id, id ∉ missing_indicators) ids in
      match indicator_cols with
      | [] => Ok df
      | _ :: _ => round_columns indicator_cols df
      end
  end.

(** ** [apply_threshold_filters] *)

(** The flag series [df[ind_id] <= threshold] or [df[ind_id] >= threshold]. *)
Definition threshold_flags (direction : string) (threshold : Qc)
    (vals : list float) : list cell :=
  if decide (direction = "minimize") then
    (λ v, CBool (float_le v (Some threshold))) <$> vals
  else if decide (direction = "maximize") then
    (λ v, CBool (float_le (Some threshold) v)) <$> vals
  else
    (λ v, CBool (float_le v (Some threshold))) <$> vals.

(** The body of the [try] block of one loop iteration. *)
Definition threshold_body (df : DataFrame) (threshold_cols : list string)
    (indicator : Indicator) : res (DataFrame * list string) :=
  ind_id ← key (indicator_id indicator);
  threshold ← key (threshold indicator);
  direction ← key (direction indicator);
  if negb (has_column df ind_id) then Ok (df, threshold_cols)
  else
    let col_name := ind_id +:+ THRESHOLD_SUFFIX in
    vals ← numeric_column df ind_id;
    Ok (set_column col_name (threshold_flags direction threshold vals) df,
        threshold_cols ++ [col_name]).

(** One loop iteration: an exception leaves the state as it is. *)
Definition threshold_step (st : DataFrame * list string)
    (indicator : Indicator) : DataFrame * list string :=
  match threshold_body st.1 st.2 indicator with
  | Ok st' => st'
  | Raise _ => st
  end.

(** [(~df[threshold_cols]).sum(axis=1)] on one row. *)
Definition count_violations (threshold_cols : list string)
    (r : gmap string cell) : nat :=
  length (filter (λ c, r !! c = Some (CBool false)) threshold_cols).

(** [df['threshold_violations'] == 0] on one row. *)
Definition no_violation (r : gmap string cell) : cell :=
  match r !! "threshold_violations" with
  | Some (CNum n) => CBool (bool_decide (n = 0%Qc))
  | _ => CBool false
  end.

Definition apply_threshold_filters (df_experiments : DataFrame)
    (indicators_config : IndicatorsConfig) : res DataFrame :=
  if df_empty df_experiments then Ok df_experiments
  else
    match indicators indicators_config with
    | None => Raise RuntimeError
    | Some inds =>
        let '(df, threshold_cols) := foldl threshold_step (df_experiments, []) inds in
        match threshold_cols with
        | _ :: _ =>
            let df1 :=
              set_column "threshold_violations"
                ((λ r, nat_cell (count_violations threshold_cols r)) <$> rows df) df in
            Ok (set_column "is_feasible" (no_violation <$> rows df1) df1)
        | [] =>
            Ok (set_column_const "is_feasible" (CBool true)
                  (set_column_const "threshold_violations" (CNum 0%Qc) df))
        end
    end.

(** ** [normalize_indicators] *)

Definition EPSILON : Qc := Q2Qc (1 # 10000000000).

Definition best_value (direction : string) (vals : list float) : float :=
  if decide (direction = "maximize") then series_max vals else series_min vals.

Definition worst_value_raw (direction : string) (vals : list float) : float :=
  if decide (direction = "maximize") then series_min vals else series_max vals.

Definition worst_value (direction : string) (threshold : Qc)
    (vals : list float) : float :=
  if decide (direction = "minimize")
  then py_min (worst_value_raw direction vals) (Some threshold)
  else py_max (worst_value_raw direction vals) (Some threshold).

(** [abs(best_value - worst_value) < 1e-10] *)
Definition degenerate (best worst : float) : bool :=
  float_lt (float_abs (float_sub best worst)) (Some EPSILON).

Definition normalized_value (direction : string) (best worst v : float) : float :=
  if decide (direction = "minimize") then
    float_div (float_sub worst v) (float_sub worst best)
  else if decide (direction = "maximize") then
    float_div (float_sub v worst) (float_sub best worst)
  else
    float_div (float_sub worst v) (float_sub worst best).

Definition normalize_body (df : DataFrame) (indicator : Indicator) : res DataFrame :=
  ind_id ← key (indicator_id indicator);
  direction ← key (direction indicator);
  threshold ← key (threshold indicator);
  if negb (has_column df ind_id) then Ok df
  else
    vals ← numeric_column df ind_id;
    let best := best_value direction vals in
    let worst := worst_value direction threshold vals in
    if degenerate best worst then
      Ok (set_column_const (ind_id +:+ NORMALIZED_SUFFIX) (CNum 1%Qc) df)
    else
      Ok (set_column (ind_id +:+ NORMALIZED_SUFFIX)
            ((λ v, of_float (float_round 2 (normalized_value direction best worst v)))
               <$> vals) df).

Definition normalize_step (df : DataFrame) (indicator : Indicator) : DataFrame :=
  match normalize_body df indicator with
  | Ok df' => df'
  | Raise _ => df
  end.

Definition normalize_indicators (df_experiments : DataFrame)
    (indicators_config : IndicatorsConfig) : res DataFrame :=
  if df_empty df_experiments then Ok df_experiments
  else
    match indicators indicators_config with
    | None => Raise RuntimeError
    | Some inds => Ok (foldl normalize_step df_experiments inds)
    end.

(** ** [run_module2] *)

(** A stage whose failure is reported and skipped: the table stays as it
    was.  [data['indicators']] is a configuration dict whenever the
    aggregation went through. *)
Definition stage (data : gmap string DataValue)
    (f : DataFrame → IndicatorsConfig → res DataFrame) (df : DataFrame) : DataFrame :=
  match data !! "indicators" with
  | Some (DConfig indicators_config) =>
      match f df indicators_config with
      | Ok df' => df'
      | Raise _ => df
      end
  | _ => df
  end.

(** The orchestration of module 2.  An aggregation that raises, or that
    gives an empty table, stores [pd.DataFrame()] under ['df_experiments']. *)
Definition run_module2 (data : gmap string DataValue) : gmap string DataValue :=
  match aggregate_to_experiment_level data with
  | Raise _ => <["df_experiments" := DFrame empty_frame]> data
  | Ok df_experiments =>
      if df_empty df_experiments
      then <["df_experiments" := DFrame empty_frame]> data
      else
        let df1 := stage data apply_threshold_filters df_experiments in
        let df2 := stage data normalize_indicators df1 in
        <["df_experiments" := DFrame df2]> data
  end.

End module2.

(* ================================================================== *)
(** * Module 3: weighting and ranking *)
(* ================================================================== *)

Module module3.
Import Num Pandas.

Definition WEIGHTED_SUFFIX : string := "_weighted".
Definition RANK_ALL_COLUMN : string := "rank_all".
Definition RANK_FEASIBLE_COLUMN : string := "rank".
Definition ECONOMIC_SCORE_COLUMN : string := "economic_score".
Definition ENVIRONMENTAL_SCORE_COLUMN : string := "environmental_score".
Definition TOTAL_SCORE_COLUMN : string := "total_weighted_score".
Definition FEASIBILITY_COLUMN : string := "is_feasible".
Definition ECONOMIC_CATEGORY : string := "economic".
Definition ENVIRONMENTAL_CATEGORY : string := "environmental".

(** ** [apply_weights] *)

Definition NORMALIZED_SUFFIX : string := "_normalized".

(** [(value * weight).round(score_precision)], then [fillna(0)], on one
    value of the normalised column. *)
Definition weighted_cell (weight : Qc) (score_precision : Z) (v : float) : cell :=
  match float_round score_precision (float_mul v (Some weight)) with
  | Some q => CNum q
  | None => CNum 0%Qc
  end.

(** The body of the [try] block of one loop iteration. *)
Definition weight_body (score_precision : Z) (df : DataFrame)
    (indicator : Indicator) : res DataFrame :=
  ind_id ← key (indicator_id indicator);
  weight ← key (weight indicator);
  let normalized_col := ind_id +:+ NORMALIZED_SUFFIX in
  if negb (has_column df normalized_col) then Ok df
  else
    let weighted_col := ind_id +:+ WEIGHTED_SUFFIX in
    vals ← numeric_column df normalized_col;
    Ok (set_column weighted_col (weighted_cell weight score_precision <$> vals) df).

(** One loop iteration: an exception leaves the table as it is. *)
Definition weight_step (score_precision : Z) (df : DataFrame)
    (indicator : Indicator) : DataFrame :=
  match weight_body score_precision df indicator with
  | Ok df' => df'
  | Raise _ => df
  end.

Definition apply_weights (df_experiments : DataFrame)
    (indicators_config : IndicatorsConfig) (score_precision : Z) : res DataFrame :=
  if df_empty df_experiments then Ok df_experiments
  else
    match indicators indicators_config with
    | None => Raise RuntimeError
    | Some inds => Ok (foldl (weight_step score_precision) df_experiments inds)
    end.

(** ** [calculate_total_score] *)

(** The loop that collects the weighted columns that exist; a missing
    ['indicator_id'] raises [KeyError]. *)
Definition weighted_cols (df : DataFrame) (inds : list Indicator) : res (list string) :=
  cols ← traverse (λ ind, id ← key (indicator_id ind); Ok (id +:+ WEIGHTED_SUFFIX)) inds;
  Ok (filter (λ c, has_column df c = true) cols).

(** [df[col] = df[cols].sum(axis=1).round(p)], or [df[col] = 0] when
    [cols] is empty. *)
Definition score_column (col : string) (p : Z) (cols : list string)
    (df : DataFrame) : res DataFrame :=
  match cols with
  | [] => Ok (set_column_const col (CNum 0%Qc) df)
  | _ :: _ =>
      sums ← sum_axis1 df cols;
      Ok (set_column col ((λ s, CNum (round_dec p s)) <$> sums) df)
  end.

Definition zero_category_scores (df : DataFrame) : DataFrame :=
  set_column_const ENVIRONMENTAL_SCORE_COLUMN (CNum 0%Qc)
    (set_column_const ECONOMIC_SCORE_COLUMN (CNum 0%Qc) df).

(** Step 2: the two category scores. *)
Definition category_scores (df : DataFrame) (inds : list Indicator) (p : Z) : DataFrame :=
  let economic_indicators :=
    filter (λ ind, category ind = Some ECONOMIC_CATEGORY) inds in
  let environmental_indicators :=
    filter (λ ind, category ind = Some ENVIRONMENTAL_CATEGORY) inds in
  match (economic_cols ← weighted_cols df economic_indicators;
         score_column ECONOMIC_SCORE_COLUMN p economic_cols df) with
  | Raise _ => zero_category_scores df
  | Ok df1 =>
      match (environmental_cols ← weighted_cols df1 environmental_indicators;
             score_column ENVIRONMENTAL_SCORE_COLUMN p environmental_cols df1) with
      | Raise _ => zero_category_scores df1
      | Ok df2 => df2
      end
  end.

(** Step 3: the total score, from the weighted columns themselves. *)
Definition total_score (df : DataFrame) (inds : list Indicator) (p : Z) : DataFrame :=
  match (all_weighted_cols ← weighted_cols df inds;
         score_column TOTAL_SCORE_COLUMN p all_weighted_cols df) with
  | Ok df' => df'
  | Raise _ => set_column_const TOTAL_SCORE_COLUMN (CNum 0%Qc) df
  end.

Definition calculate_total_score (df_experiments : DataFrame)
    (indicators_config : IndicatorsConfig) (score_precision : Z) : res DataFrame :=
  if df_empty df_experiments then Ok df_experiments
  else
    match indicators indicators_config with
    | None => Raise RuntimeError
    | Some inds =>
        Ok (total_score (category_scores df_experiments inds score_precision)
                        inds score_precision)
    end.

(** ** [rank_experiments] *)

(** Step 1: [rank_all]. *)
Definition rank_all (df : DataFrame) : DataFrame :=
  match (scores ← numeric_column df TOTAL_SCORE_COLUMN;
         ranks ← astype_int (rank_min_desc scores);
         Ok (set_column RANK_ALL_COLUMN (nat_cell <$> ranks) df)) with
  | Ok df' => df'
  | Raise _ => set_column_const RANK_ALL_COLUMN CNaN df
  end.

(** [df.loc[feasible_mask, TOTAL_SCORE_COLUMN]] *)
Definition masked (mask : list bool) (scores : list float) : list float :=
  omap (λ p : bool * float, if p.1 then Some p.2 else None) (zip mask scores).

(** Step 2: [rank], over the feasible rows only. *)
Definition rank_feasible (df : DataFrame) : DataFrame :=
  match get_column df FEASIBILITY_COLUMN ≫= traverse as_bool with
  | Raise _ => set_column_const RANK_FEASIBLE_COLUMN CNaN df
  | Ok feasible_mask =>
      let df1 := set_column_const RANK_FEASIBLE_COLUMN CNaN df in
      if bool_decide (Exists (λ b, b = true) feasible_mask) then
        match numeric_column df1 TOTAL_SCORE_COLUMN with
        | Raise _ => set_column_const RANK_FEASIBLE_COLUMN CNaN df1
        | Ok scores =>
            let feasible_scores := masked feasible_mask scores in
            set_column RANK_FEASIBLE_COLUMN
              (zip_with (λ (b : bool) v,
                           if b then int64_cell (rank_of feasible_scores v) else CNaN)
                        feasible_mask scores) df1
        end
      else df1
  end.

Definition rank_experiments (df_experiments : DataFrame) : DataFrame :=
  if df_empty df_experiments then df_experiments
  else if negb (has_column df_experiments TOTAL_SCORE_COLUMN) then
    set_column_const RANK_FEASIBLE_COLUMN CNaN
      (set_column_const RANK_ALL_COLUMN CNaN df_experiments)
  else
    let df :=
      if has_column df_experiments FEASIBILITY_COLUMN then df_experiments
      else set_column_const FEASIBILITY_COLUMN (CBool true) df_experiments in
    rank_feasible (rank_all df).

(** ** [run_module3] *)

(** The keys of [data['formatting_config']] that module 3 reads:
    [['output_formatting']['score_precision']],
    [['console_output']['separator_width']] and
    [['console_output']['top_n_display']].  A field is [None] when the key,
    or the section that holds it, is absent. *)
Record FormattingConfig : Type := mkFormatting {
  score_precision : option Z;
  separator_width : option Z;
  top_n_display : option Z
}.

(** A stage of module 3 whose failure is reported and skipped.  An entry
    [data['indicators']] that is not a configuration dict makes the stage
    raise, as in [required_indicators]. *)
Definition scoring_stage (indicators_entry : module2.DataValue) (p : Z)
    (f : DataFrame → IndicatorsConfig → Z → res DataFrame) (df : DataFrame) : DataFrame :=
  match indicators_entry with
  | module2.DConfig indicators_config =>
      match f df indicators_config p with
      | Ok df' => df'
      | Raise _ => df
      end
  | _ => df
  end.

(** The orchestration of module 3.  The entry [data['formatting_config']]
    is passed as [formatting_config], [None] when the key is absent.  When
    an entry is missing, the table is empty or the formatting
    configuration lacks one of its three keys, [data] is returned as it
    is. *)
Definition run_module3 (data : gmap string module2.DataValue)
    (formatting_config : option FormattingConfig) : gmap string module2.DataValue :=
  match data !! "df_experiments", data !! "indicators", formatting_config with
  | Some (module2.DFrame df_experiments), Some indicators_entry, Some fmt_config =>
      if df_empty df_experiments then data
      else
        match score_precision fmt_config, separator_width fmt_config,
              top_n_display fmt_config with
        | Some p, Some _, Some _ =>
            let df1 := scoring_stage indicators_entry p apply_weights df_experiments in
            let df2 := scoring_stage indicators_entry p calculate_total_score df1 in
            <["df_experiments" := module2.DFrame (rank_experiments df2)]> data
        | _, _, _ => data
        end
  | _, _, _ => data
  end.

End module3.

(* ================================================================== *)
(** * Module 1: variable resolution and formula evaluation *)
(* ================================================================== *)

Module module1.
Import Num Pandas.

(** ** Values *)

(** A value loaded from a JSON attribute file.  A dict keeps the order of
    its entries; its keys are distinct. *)
#[warnings="-register-all"]
Inductive json : Type :=
  | JNull
  | JBool (b : bool)
  | JNum (q : Qc)
  | JStr (s : string)
  | JList (l : list json)
  | JDict (d : list (string * json)).

Fixpoint assoc {A} (k : string) (d : list (string * A)) : option A :=
  match d with
  | [] => None
  | (k', v) :: d' => if decide (k' = k) then Some v else assoc k d'
  end.

(** What a variable resolves to: a cell of the row or a JSON value. *)
Inductive pyval : Type :=
  | VCell (c : cell)
  | VJson (j : json).

(** [j.get(k, dflt)] *)
Definition py_get (j : json) (k : string) (dflt : json) : res json :=
  match j with
  | JDict d => Ok (default dflt (assoc k d))
  | _ => Raise AttributeError
  end.

(** [j[k]] with a string key *)
Definition py_index (j : json) (k : string) : res json :=
  match j with
  | JDict d => key (assoc k d)
  | _ => Raise TypeError
  end.

(** [for x in j] *)
Definition py_iter (j : json) : res (list json) :=
  match j with
  | JList l => Ok l
  | JDict d => Ok ((λ kv, JStr kv.1) <$> d)
  | JStr s => Ok ((λ a, JStr (String a EmptyString)) <$> String.list_ascii_of_string s)
  | _ => Raise TypeError
  end.

(** [j.items()], values only *)
Definition py_items (j : json) : res (list json) :=
  match j with
  | JDict d => Ok (snd <$> d)
  | _ => Raise AttributeError
  end.

Definition bool_num (b : bool) : Qc := if b then 1%Qc else 0%Qc.

(** [j == c] for a JSON value and a cell of a row. *)
Definition py_eq (j : json) (c : cell) : bool :=
  match j, c with
  | JStr s, CStr s' => bool_decide (s = s')
  | JNum q, CNum q' => bool_decide (q = q')
  | JNum q, CBool b => bool_decide (q = bool_num b)
  | JBool b, CNum q => bool_decide (bool_num b = q)
  | JBool b, CBool b' => bool_decide (b = b')
  | _, _ => false
  end.

(** [j <= c] and [c <= j]: numbers with numbers and strings with strings;
    a comparison with [NaN] is false; anything else raises [TypeError]. *)
Definition json_num (j : json) : option Qc :=
  match j with JNum q => Some q | JBool b => Some (bool_num b) | _ => None end.

Definition py_le_json_cell (j : json) (c : cell) : res bool :=
  match json_num j, c with
  | Some x, CNum y => Ok (bool_decide (x ≤ y)%Qc)
  | Some x, CBool b => Ok (bool_decide (x ≤ bool_num b)%Qc)
  | Some _, CNaN => Ok false
  | Some _, CStr _ => Raise TypeError
  | None, _ =>
      match j, c with
      | JStr s, CStr s' => Ok (String.leb s s')
      | _, _ => Raise TypeError
      end
  end.

Definition py_le_cell_json (c : cell) (j : json) : res bool :=
  match json_num j, c with
  | Some y, CNum x => Ok (bool_decide (x ≤ y)%Qc)
  | Some y, CBool b => Ok (bool_decide (bool_num b ≤ y)%Qc)
  | Some _, CNaN => Ok false
  | Some _, CStr _ => Raise TypeError
  | None, _ =>
      match j, c with
      | JStr s', CStr s => Ok (String.leb s s')
      | _, _ => Raise TypeError
      end
  end.

(** ** Strings *)

(** [s.split('.')] *)
Fixpoint split_dot (s : string) : list string :=
  match s with
  | EmptyString => [EmptyString]
  | String a s' =>
      if decide (String a EmptyString = ".") then EmptyString :: split_dot s'
      else match split_dot s' with
           | [] => [String a EmptyString]
           | seg :: segs => String a seg :: segs
           end
  end.

(** [s.replace(pat, '')] for a pattern that is not empty. *)
Fixpoint remove_all_fuel (fuel : nat) (pat s : string) : string :=
  match fuel with
  | O => s
  | S n =>
      match s with
      | EmptyString => EmptyString
      | String a s' =>
          if String.prefix pat s
          then remove_all_fuel n pat
                 (String.substring (String.length pat)
                                   (String.length s - String.length pat) s)
          else String a (remove_all_fuel n pat s')
      end
  end.
Definition remove_all (pat s : string) : string :=
  remove_all_fuel (String.length s) pat s.

(** ** Configuration *)

Definition SOURCE_DATAFRAME : string := "dataframe".
Definition SOURCE_ATTRIBUTE_FILE : string := "attribute_file".
Definition SOURCE_QUALITY_RANGE : string := "quality_range".
Definition SOURCE_QUALITY_THRESHOLD : string := "quality_threshold".
Definition TABLE_PROCESS : string := "process".
Definition TABLE_SYSTEMS : string := "systems".
Definition TABLE_PRODUCT : string := "product".
Definition QUALITY_MIN : string := "quality_min".
Definition QUALITY_MAX : string := "quality_max".
Definition COMPONENT_NAME : string := "component_name".
Definition VALUE_PRECISION : Z := 2.
Definition DEFAULT_VALUE : json := JNum 0%Qc.

(** The configuration dict of one variable; a field is [None] when the
    key is absent. *)
Record VarConfig : Type := mkVarConfig {
  source : option string;
  column : option string;
  file : option string;
  lookup_columns : option (list string);
  value_path : option string;
  lookup_column : option string;
  quality_column : option string;
  value_key : option string
}.

(** The part of the data dictionary the resolver reads:
    [data['attributes']], a dict from table names to JSON documents. *)
Record Data : Type := mkData {
  attributes : option (list (string * json))
}.

(** [row[c]] *)
Definition row_get (row : gmap string cell) (c : string) : res cell := key (row !! c).

(** [data['attributes'][table][attr_structure[table]]] *)
Definition attribute_table (data : Data) (attr_structure : gmap string string)
    (table : string) : res json :=
  structure_key ← key (attr_structure !! table);
  attrs ← key (attributes data);
  doc ← key (assoc table attrs);
  py_index doc structure_key.

(** ** [get_variable_value] *)

(** [value = value.get(path_part, dflt)] along the path. *)
Fixpoint walk_path (dflt : json) (path : list string) (value : json) : res json :=
  match path with
  | [] => Ok value
  | path_part :: path' => v ← py_get value path_part dflt; walk_path dflt path' v
  end.

(** [return value if value is not None else DEFAULT_VALUE] *)
Definition or_default (value : json) : json :=
  match value with JNull => DEFAULT_VALUE | _ => value end.

(** The scan for the component of a product table: the first component
    whose name equals [step_name] is handed to [found]; without one the
    result is [DEFAULT_VALUE]. *)
Fixpoint find_component (step_name : cell) (found : json → res json)
    (attr_table : list json) : res json :=
  match attr_table with
  | [] => Ok DEFAULT_VALUE
  | component :: rest =>
      name ← py_index component COMPONENT_NAME;
      if py_eq name step_name then found component
      else find_component step_name found rest
  end.

(** The scan for an entry of a process or systems table: the first entry
    whose keys all equal the lookup values. *)
Fixpoint find_entry (lookup_values : list (string * cell)) (found : json → res json)
    (attr_table : list json) : res json :=
  match attr_table with
  | [] => Ok DEFAULT_VALUE
  | entry :: rest =>
      hits ← traverse (λ kv : string * cell,
                         v ← py_get entry kv.1 JNull; Ok (py_eq v kv.2)) lookup_values;
      if forallb (λ b, b) hits then found entry
      else find_entry lookup_values found rest
  end.

(** [q_min <= quality <= q_max] for one range entry or option, with the
    defaults 0 and 1 for absent bounds. *)
Definition in_quality_range (quality : cell) (range_entry : json) : res bool :=
  q_min ← py_get range_entry QUALITY_MIN (JNum 0%Qc);
  q_max ← py_get range_entry QUALITY_MAX (JNum 1%Qc);
  lower ← py_le_json_cell q_min quality;
  if (lower : bool) then py_le_cell_json quality q_max else Ok false.

(** The loop over range entries or options: the value of the first one
    that contains the quality; [DEFAULT_VALUE] after the loop. *)
Fixpoint first_in_range (quality : cell) (value_key : string)
    (entries : list json) : res json :=
  match entries with
  | [] => Ok DEFAULT_VALUE
  | range_entry :: rest =>
      hit ← in_quality_range quality range_entry;
      if (hit : bool) then py_get range_entry value_key DEFAULT_VALUE
      else first_in_range quality value_key rest
  end.

Definition get_variable_value (row : gmap string cell) (var_name : string)
    (var_config : VarConfig) (data : Data) (attr_structure : gmap string string)
    : res pyval :=
  source ← key (source var_config);
  if decide (source = SOURCE_DATAFRAME) then
    col_name ← key (column var_config);
    VCell <$> row_get row col_name
  else if decide (source = SOURCE_ATTRIBUTE_FILE) then
    file ← key (file var_config);
    lookup_columns ← key (lookup_columns var_config);
    value_path ← key (value_path var_config);
    let table_name := remove_all ".json" (remove_all "attributes_" file) in
    lookup_values ← traverse (λ col, v ← row_get row col; Ok (col, v)) lookup_columns;
    let found (entry : json) :=
      value ← walk_path DEFAULT_VALUE (split_dot value_path) entry;
      Ok (or_default value) in
    if decide (table_name = TABLE_PROCESS ∨ table_name = TABLE_SYSTEMS) then
      attr_table ← attribute_table data attr_structure table_name;
      entries ← py_iter attr_table;
      VJson <$> find_entry lookup_values found entries
    else if decide (table_name = TABLE_PRODUCT) then
      first_column ← match lookup_columns with
                     | [] => Raise IndexError
                     | col :: _ => Ok col
                     end;
      step_name ← row_get row first_column;
      attr_table ← attribute_table data attr_structure TABLE_PRODUCT;
      components ← py_iter attr_table;
      VJson <$> find_component step_name found components
    else Ok (VJson DEFAULT_VALUE)
  else if decide (source = SOURCE_QUALITY_RANGE) then
    _ ← key (file var_config);
    lookup_column ← key (lookup_column var_config);
    quality_column ← key (quality_column var_config);
    value_path ← key (value_path var_config);
    value_key ← key (value_key var_config);
    step_name ← row_get row lookup_column;
    quality ← row_get row quality_column;
    attr_table ← attribute_table data attr_structure TABLE_PRODUCT;
    components ← py_iter attr_table;
    VJson <$> find_component step_name
      (λ component,
         attr_data ← walk_path (JList []) (split_dot value_path) component;
         match attr_data with
         | JList entries => first_in_range quality value_key entries
         | _ => Ok DEFAULT_VALUE
         end)
      components
  else if decide (source = SOURCE_QUALITY_THRESHOLD) then
    _ ← key (file var_config);
    lookup_column ← key (lookup_column var_config);
    quality_column ← key (quality_column var_config);
    value_path ← key (value_path var_config);
    value_key ← key (value_key var_config);
    step_name ← row_get row lookup_column;
    quality ← row_get row quality_column;
    attr_table ← attribute_table data attr_structure TABLE_PRODUCT;
    components ← py_iter attr_table;
    VJson <$> find_component step_name
      (λ component,
         eol_options ← py_get component value_path (JDict []);
         options ← py_items eol_options;
         first_in_range quality value_key options)
      components
  else Raise ValueError.

(** ** [evaluate_formula_for_row] *)

(** The arithmetic expressions a formula string may denote. *)
Inductive expr : Type :=
  | ENum (q : Qc)
  | EVar (x : string)
  | ENeg (a : expr)
  | EAdd (a b : expr)
  | ESub (a b : expr)
  | EMul (a b : expr)
  | EDiv (a b : expr).

(** A formula string as [eval] reads it: an expression, or text that does
    not parse ([SyntaxError]). *)
Inductive Formula : Type :=
  | Unparsable
  | Parsed (e : expr).

(** The number a value stands for in arithmetic.  An operand that is not a
    number makes the operator raise or the result not a number, on which
    [round] raises: both inside the same [try] block, so that one
    [TypeError] stands for both. *)
Definition arith_value (v : pyval) : res float :=
  match v with
  | VCell (CNum q) => Ok (Some q)
  | VCell (CBool b) => Ok (Some (bool_num b))
  | VCell CNaN => Ok None
  | VJson (JNum q) => Ok (Some q)
  | VJson (JBool b) => Ok (Some (bool_num b))
  | _ => Raise TypeError
  end.

Definition float_add (a b : float) : float := x ← a; y ← b; Some (x + y)%Qc.
Definition float_neg (a : float) : float := Qcopp <$> a.

(** [eval(formula, {"__builtins__": {}}, var_values)] on a parsed formula:
    a name outside [var_values] raises [NameError], a division by zero
    [ZeroDivisionError]. *)
Fixpoint eval_expr (var_values : gmap string pyval) (e : expr) : res float :=
  match e with
  | ENum q => Ok (Some q)
  | EVar x =>
      match var_values !! x with
      | Some v => arith_value v
      | None => Raise NameError
      end
  | ENeg a => x ← eval_expr var_values a; Ok (float_neg x)
  | EAdd a b => x ← eval_expr var_values a; y ← eval_expr var_values b; Ok (float_add x y)
  | ESub a b => x ← eval_expr var_values a; y ← eval_expr var_values b; Ok (float_sub x y)
  | EMul a b => x ← eval_expr var_values a; y ← eval_expr var_values b; Ok (float_mul x y)
  | EDiv a b =>
      x ← eval_expr var_values a;
      y ← eval_expr var_values b;
      if decide (y = Some 0%Qc) then Raise ZeroDivisionError else Ok (float_div x y)
  end.

Definition eval_formula (var_values : gmap string pyval) (formula : Formula) : res float :=
  match formula with
  | Unparsable => Raise SyntaxError
  | Parsed e => eval_expr var_values e
  end.

(** Step 1: the variable dictionary; a variable whose lookup raises gets
    [DEFAULT_VALUE]. *)
Definition resolve_variables (row : gmap string cell)
    (variables : list (string * VarConfig)) (data : Data)
    (attr_structure : gmap string string) : gmap string pyval :=
  foldl (λ var_values (item : string * VarConfig),
           match get_variable_value row item.1 item.2 data attr_structure with
           | Ok v => <[item.1 := v]> var_values
           | Raise _ => <[item.1 := VJson DEFAULT_VALUE]> var_values
           end) ∅ variables.

(** Step 2: the formula, rounded, or [DEFAULT_VALUE] when anything in the
    [try] block raises. *)
Definition evaluate_formula_for_row (row : gmap string cell) (formula : Formula)
    (variables : list (string * VarConfig)) (data : Data)
    (attr_structure : gmap string string) : float :=
  let var_values := resolve_variables row variables data attr_structure in
  match eval_formula var_values formula with
  | Ok result => float_round VALUE_PRECISION result
  | Raise _ => Some 0%Qc
  end.

(** ** [calculate_indicators] *)

Definition CATEGORY_COST_FACTOR : string := "cost_factor".
Definition CATEGORY_AGGREGATE : string := "aggregate".

(** The keys of an indicator dict that are read here, each field under the
    name of the constant that holds its key; [None] when the key is
    absent. *)
Record IndicatorEntry : Type := mkIndicatorEntry {
  IND_TARGET_DATAFRAME : option string;
  IND_INDICATOR_ID : option string;
  IND_FORMULA : option Formula;
  IND_INDICATOR_VARIABLES : option (list (string * VarConfig))
}.

(** The keys of a value dict that are read here. *)
Record ValueEntry : Type := mkValueEntry {
  VAL_TARGET_DATAFRAME : option string;
  VAL_VALUE_ID : option string;
  VAL_VALUE_NAME : option string;
  VAL_CATEGORY : option string;
  VAL_FORMULA : option Formula;
  VAL_VALUE_VARIABLES : option (list (string * VarConfig))
}.

(** [if k not in groups: groups[k] = []] followed by [groups[k].append(x)];
    a dict keeps its keys in insertion order. *)
Fixpoint group_append {A} (k : string) (x : A) (groups : list (string * list A))
    : list (string * list A) :=
  match groups with
  | [] => [(k, [x])]
  | (k', xs) :: rest =>
      if decide (k' = k) then (k', xs ++ [x]) :: rest
      else (k', xs) :: group_append k x rest
  end.

(** The grouping loop; an entry without target raises [KeyError]. *)
Fixpoint group_by_target {A} (target : A → option string) (items : list A)
    (groups : list (string * list A)) : res (list (string * list A)) :=
  match items with
  | [] => Ok groups
  | item :: rest =>
      target_df ← key (target item);
      group_by_target target rest (group_append target_df item groups)
  end.

(** A loop whose body may raise. *)
Fixpoint for_each {A S} (body : S → A → res S) (items : list A) (st : S) : res S :=
  match items with
  | [] => Ok st
  | item :: rest => st' ← body st item; for_each body rest st'
  end.

(** [data[df_name]] used as a table. *)
Definition table (data : gmap string module2.DataValue) (df_name : string)
    : res DataFrame :=
  match data !! df_name with
  | Some (module2.DFrame df) => Ok df
  | Some _ => Raise AttributeError
  | None => Raise KeyError
  end.

(** The row handed to the function by [df.apply(..., axis=1)]: a series
    indexed by the columns of the table. *)
Definition row_series (df : DataFrame) (r : gmap string cell) : gmap string cell :=
  list_to_map ((λ c, (c, cell_at c r)) <$> columns df).

(** [df[col] = df.apply(calc_row, axis=1)] *)
Definition calculate_column (attrs : Data) (attr_structure : gmap string string)
    (col : string) (formula : Formula) (variables : list (string * VarConfig))
    (df : DataFrame) : DataFrame :=
  set_column col
    ((λ r, of_float (evaluate_formula_for_row (row_series df r) formula variables
                                              attrs attr_structure)) <$> rows df)
    df.

(** One indicator of the group of [df_name]. *)
Definition indicator_step (attrs : Data) (attr_structure : gmap string string)
    (df_name : string) (data : gmap string module2.DataValue)
    (indicator : IndicatorEntry) : res (gmap string module2.DataValue) :=
  ind_id ← key (IND_INDICATOR_ID indicator);
  formula ← key (IND_FORMULA indicator);
  variables ← key (IND_INDICATOR_VARIABLES indicator);
  df ← table data df_name;
  Ok (<[df_name := module2.DFrame
          (calculate_column attrs attr_structure ind_id formula variables df)]> data).

(** Step 3: the groups in turn.  The table is looked up before the first
    indicator of its group. *)
Definition indicator_group (attrs : Data) (attr_structure : gmap string string)
    (data : gmap string module2.DataValue)
    (group : string * list IndicatorEntry) : res (gmap string module2.DataValue) :=
  _ ← key (data !! group.1);
  for_each (indicator_step attrs attr_structure group.1) group.2 data.

(** [[v for v in values if v[VAL_CATEGORY] == category]] *)
Fixpoint of_category (category : string) (values : list ValueEntry)
    : res (list ValueEntry) :=
  match values with
  | [] => Ok []
  | v :: rest =>
      c ← key (VAL_CATEGORY v);
      vs ← of_category category rest;
      Ok (if decide (c = category) then v :: vs else vs)
  end.

(** [value.get(VAL_VALUE_ID, value.get(VAL_VALUE_NAME))] *)
Definition value_column (value : ValueEntry) : option string :=
  match VAL_VALUE_ID value with
  | Some value_id => Some value_id
  | None => VAL_VALUE_NAME value
  end.

(** One value of the group of [df_name].  A value with neither id nor name
    is stored under the label [None], which is no column name: the columns
    with a name stay as they are. *)
Definition value_step (attrs : Data) (attr_structure : gmap string string)
    (df_name : string) (data : gmap string module2.DataValue)
    (value : ValueEntry) : res (gmap string module2.DataValue) :=
  formula ← key (VAL_FORMULA value);
  variables ← key (VAL_VALUE_VARIABLES value);
  df ← table data df_name;
  match value_column value with
  | Some value_col =>
      Ok (<[df_name := module2.DFrame
              (calculate_column attrs attr_structure value_col formula variables df)]> data)
  | None => Ok data
  end.

(** Step 4 for one group: the cost factors, then the aggregates. *)
Definition value_group (attrs : Data) (attr_structure : gmap string string)
    (data : gmap string module2.DataValue)
    (group : string * list ValueEntry) : res (gmap string module2.DataValue) :=
  _ ← key (data !! group.1);
  cost_factors ← of_category CATEGORY_COST_FACTOR group.2;
  aggregates ← of_category CATEGORY_AGGREGATE group.2;
  let ordered_values := cost_factors ++ aggregates in
  for_each (value_step attrs attr_structure group.1) ordered_values data.

(** The tables of [data] with the indicator and value columns added.
    [attr_structure] is what [load_attribute_structure] returned;
    [indicators_config] stands for [data['indicators']['indicators']],
    [regular_values] for [data['values']['values']] and [special_values]
    for [data['values']['special_values']], each [None] when a key on the
    way is absent; [attrs] holds [data['attributes']].  The tables of
    [data] are distinct objects. *)
Definition calculate_indicators (data : gmap string module2.DataValue)
    (attrs : Data) (attr_structure : gmap string string)
    (indicators_config : option (list IndicatorEntry))
    (regular_values special_values : option (list ValueEntry))
    : res (gmap string module2.DataValue) :=
  indicators_config ← key indicators_config;
  indicators_by_df ← group_by_target IND_TARGET_DATAFRAME indicators_config [];
  data ← for_each (indicator_group attrs attr_structure) indicators_by_df data;
  regular_values ← key regular_values;
  special_values ← key special_values;
  let all_values := regular_values ++ special_values in
  values_by_df ← group_by_target VAL_TARGET_DATAFRAME all_values [];
  for_each (value_group attrs attr_structure) values_by_df data.

End module1.

(* ================================================================== *)
(** * Vocabulary of the statements, and worked data *)
(* ================================================================== *)

(** The last character of a string, which tells the suffixed column names
    apart. *)
Fixpoint last_char (s : string) : option Ascii.ascii :=
  match s with
  | EmptyString => None
  | String a EmptyString => Some a
  | String _ s' => last_char s'
  end.

Section frame_terms.
Import Num Pandas.

(** [df'] has the rows of [df], changed at most in the columns in [P]. *)
Definition same_outside (P : string → Prop) (df df' : DataFrame) : Prop :=
  length (rows df') = length (rows df)
  ∧ (∀ c, ¬ P c → has_column df' c = has_column df c)
  ∧ (∀ i r r' c, ¬ P c → rows df !! i = Some r → rows df' !! i = Some r' →
       r' !! c = r !! c).

End frame_terms.

Section threshold_terms.
Import Num Pandas module2.

Definition flag_col (id : string) : string := id +:+ THRESHOLD_SUFFIX.

(** The id of an indicator whose threshold check goes through on [df0]:
    its three keys are present and its column is a float column of [df0]. *)
Definition checked (df0 : DataFrame) (ind : Indicator) : option string :=
  id ← indicator_id ind;
  _ ← threshold ind;
  _ ← direction ind;
  if has_column df0 id
  then match numeric_column df0 id with Ok _ => Some id | Raise _ => None end
  else None.

(** The flag columns the loop may write for the indicators [inds]. *)
Definition flag_cols_of (inds : list Indicator) (c : string) : Prop :=
  ∃ ind id, ind ∈ inds ∧ indicator_id ind = Some id ∧ c = flag_col id.

(** The flag of one value: [value >= threshold] for ["maximize"], and
    [value <= threshold] for every other direction string. *)
Definition flag_value (dir : string) (thr : Qc) (v : float) : bool :=
  if decide (dir = "maximize") then float_le (Some thr) v else float_le v (Some thr).

(** The two summary columns written after the loop. *)
Definition add_summary (df : DataFrame) (threshold_cols : list string) : DataFrame :=
  match threshold_cols with
  | _ :: _ =>
      let df1 :=
        set_column "threshold_violations"
          ((λ r, nat_cell (count_violations threshold_cols r)) <$> rows df) df in
      set_column "is_feasible" (no_violation <$> rows df1) df1
  | [] =>
      set_column_const "is_feasible" (CBool true)
        (set_column_const "threshold_violations" (CNum 0%Qc) df)
  end.

End threshold_terms.

(* ================================================================== *)
(** * Worked data: the three-experiment scenario of the test suite *)
(* ================================================================== *)

Module Scenario.
Import Num Pandas.

Definition dec (n : Z) (d : positive) : Qc := Q2Qc (n # d).

Definition exp_row (e : string) (i1 i2 i3 : Qc) : gmap string cell :=
  <["exp_id" := CStr e]> (<["IND01" := CNum i1]> (<["IND02" := CNum i2]>
    (<["IND03" := CNum i3]> ∅))).

(** [sample_df_experiments_aggregated], with [exp002] moved above the
    threshold of [IND01]. *)
Definition df_aggregated : DataFrame :=
  mkDataFrame ["exp_id"; "IND01"; "IND02"; "IND03"]
    [ exp_row "exp001" (dec 125 1) (dec 100 1) (dec 525 100);
      exp_row "exp002" (dec 1500 1) (dec 120 1) (dec 465 100);
      exp_row "exp003" (dec 110 1) (dec 86 1) (dec 555 100) ].

Definition IND01 : Indicator :=
  mkIndicator (Some "IND01") (Some "df_process") (Some "sum")
              (Some (dec 1000 1)) (Some "minimize") (Some (dec 3 10)) (Some "economic").
Definition IND02 : Indicator :=
  mkIndicator (Some "IND02") (Some "df_process") (Some "sum")
              (Some (dec 500 1)) (Some "minimize") (Some (dec 2 10)) (Some "environmental").
Definition IND03 : Indicator :=
  mkIndicator (Some "IND03") (Some "df_product") (Some "average")
              (Some (dec 7 10)) (Some "maximize") (Some (dec 5 10)) (Some "environmental").

Definition sample_indicators_config : IndicatorsConfig :=
  mkConfig (Some [IND01; IND02; IND03]).

End Scenario.

Section normalize_terms.
Import Num Pandas module2.

Definition norm_col (id : string) : string := id +:+ NORMALIZED_SUFFIX.

Definition norm_cols_of (inds : list Indicator) (c : string) : Prop :=
  ∃ ind id, ind ∈ inds ∧ indicator_id ind = Some id ∧ c = norm_col id.

(** The normalised cell of one value [v] of a column with values [vals]. *)
Definition norm_cell (dir : string) (thr : Qc) (vals : list float) (v : float) : cell :=
  if degenerate (best_value dir vals) (worst_value dir thr vals) then CNum 1%Qc
  else of_float (float_round 2
         (normalized_value dir (best_value dir vals) (worst_value dir thr vals) v)).

End normalize_terms.

Section normalize_bounds.
Import Num Pandas module2.
Local Open Scope Qc_scope.

Definition Qc_min (a b : Qc) : Qc := if decide (a ≤ b) then a else b.

Definition Qc_max (a b : Qc) : Qc := if decide (a ≤ b) then b else a.



End normalize_bounds.

Section normalize_data.
Import Num Pandas module2.
Local Open Scope Qc_scope.

(** Every experiment with the same [IND01], above its threshold. *)
Definition df_identical : DataFrame :=
  mkDataFrame ["exp_id"; "IND01"; "IND02"; "IND03"]
    [ Scenario.exp_row "exp001" (Scenario.dec 1500 1) (Scenario.dec 100 1) (Scenario.dec 525 100);
      Scenario.exp_row "exp002" (Scenario.dec 1500 1) (Scenario.dec 120 1) (Scenario.dec 465 100);
      Scenario.exp_row "exp003" (Scenario.dec 1500 1) (Scenario.dec 86 1) (Scenario.dec 555 100) ].

End normalize_data.

Section count_terms.
Import Num Pandas module3.
Local Open Scope Qc_scope.

(** The number of values of [l] strictly above [x]. *)
Definition count_above (x : Qc) (l : list Qc) : nat :=
  length (filter (λ y, x < y) l).

End count_terms.

Section column_terms.
Import Num Pandas.

(** The number held by column [c] in a row, if any. *)
Definition num_at (c : string) (r : gmap string cell) : option Qc :=
  match r !! c with Some (CNum q) => Some q | _ => None end.

End column_terms.

Section rank_terms.
Import Num Pandas module3.
Local Open Scope Qc_scope.

(** The total scores of the rows that have one. *)
Definition scores_of (rs : list (gmap string cell)) : list Qc :=
  omap (num_at "total_weighted_score") rs.

Definition feasible_row (r : gmap string cell) : Prop :=
  r !! "is_feasible" = Some (CBool true).

Global Instance feasible_row_dec r : Decision (feasible_row r).
Proof. unfold feasible_row. apply _. Defined.

(** A frame whose score column holds numbers and whose feasibility column
    holds booleans. *)
Definition scored (df : DataFrame) : Prop :=
  has_column df "total_weighted_score" = true
  ∧ ∀ r, r ∈ rows df → ∃ q, r !! "total_weighted_score" = Some (CNum q).

Definition flagged (df : DataFrame) : Prop :=
  has_column df "is_feasible" = true
  ∧ ∀ r, r ∈ rows df → ∃ b, r !! "is_feasible" = Some (CBool b).

Definition rank_all_cell (rs : list (gmap string cell)) (r : gmap string cell) : cell :=
  match num_at "total_weighted_score" r with
  | Some q => nat_cell (S (count_above q (scores_of rs)))
  | None => CNaN
  end.

Definition rank_cell (rs : list (gmap string cell)) (r : gmap string cell) : cell :=
  match r !! "is_feasible", num_at "total_weighted_score" r with
  | Some (CBool true), Some q =>
      nat_cell (S (count_above q (scores_of (filter feasible_row rs))))
  | _, _ => CNaN
  end.

End rank_terms.

Section score_terms.
Import Num Pandas module3.
Local Open Scope Qc_scope.

Definition weighted_col (id : string) : string := id +:+ WEIGHTED_SUFFIX.

(** The weighted columns of the configured indicators that exist in [df],
    in configuration order. *)
Definition available_weighted (df : DataFrame) (inds : list Indicator) : list string :=
  filter (λ c, has_column df c = true) (weighted_col <$> omap indicator_id inds).

(** The value a row contributes for a weighted column: a missing value
    contributes nothing. *)
Definition weighted_value (r : gmap string cell) (c : string) : Qc :=
  default 0 (num_at c r).

Definition Qc_sum (l : list Qc) : Qc := foldr Qcplus 0 l.

End score_terms.

Section score_data.
Import Num Pandas module3.
Local Open Scope Qc_scope.

Definition weighted_row (e : string) (w1 w2 w3 : Qc) : gmap string cell :=
  <["exp_id" := CStr e]> (<["IND01_weighted" := CNum w1]>
    (<["IND02_weighted" := CNum w2]> (<["IND03_weighted" := CNum w3]> ∅))).

(** The weighted columns of the three-experiment scenario. *)
Definition df_weighted : DataFrame :=
  mkDataFrame ["exp_id"; "IND01_weighted"; "IND02_weighted"; "IND03_weighted"]
    [ weighted_row "exp001" (Scenario.dec 30 100) (Scenario.dec 14 100) (Scenario.dec 34 100);
      weighted_row "exp002" (Scenario.dec 0 1) (Scenario.dec 0 1) (Scenario.dec 0 1);
      weighted_row "exp003" (Scenario.dec 30 100) (Scenario.dec 20 100) (Scenario.dec 50 100) ].

(** A partially configured category set: [IND03] has no category. *)
Definition partial_categories : list Indicator :=
  [ Scenario.IND01; Scenario.IND02;
    mkIndicator (Some "IND03") (Some "df_product") (Some "average")
                (Some (Scenario.dec 7 10)) (Some "maximize") (Some (Scenario.dec 5 10)) None ].

(** Scores and feasibility of the three-experiment scenario: [exp002] is
    infeasible. *)
Definition scored_row (e : string) (s : Qc) (b : bool) : gmap string cell :=
  <["exp_id" := CStr e]> (<["total_weighted_score" := CNum s]>
    (<["is_feasible" := CBool b]> ∅)).

Definition df_scored : DataFrame :=
  mkDataFrame ["exp_id"; "total_weighted_score"; "is_feasible"]
    [ scored_row "exp001" (Scenario.dec 78 100) true;
      scored_row "exp002" (Scenario.dec 90 100) false;
      scored_row "exp003" (Scenario.dec 78 100) true ].

End score_data.

Section aggregate_terms.
Import Num Pandas module2.

(** The table [t] has a row for experiment id [k]. *)
Definition has_exp_key (t : DataFrame) (k : cell) : Prop :=
  ∃ r, r ∈ rows t ∧ cell_at EXP_ID_COLUMN r = k.

(** The values a left row receives: those of the matching entries with
    [NaN] replaced by 0, or a single 0 when nothing matches. *)
Definition filled_matches (r : gmap string cell) (aggregated : list (cell * cell))
    : list cell :=
  (λ v, match v with CNaN => CNum 0%Qc | _ => v end)
    <$> matched_values (cell_at EXP_ID_COLUMN r) aggregated.

(** What holds of the loop state of the aggregator after the indicators
    [seen], started on the design table [df0]. *)
Definition agg_inv (data : gmap string DataValue) (df0 : DataFrame)
    (seen : list Indicator) (st : DataFrame * list string) : Prop :=
  has_column st.1 EXP_ID_COLUMN = true
  ∧ (∀ c, has_column st.1 c = true →
       has_column df0 c = true ∨ c ∈ omap indicator_id seen)
  ∧ (∀ id, id ∈ omap indicator_id seen → id ∈ st.2 ∨ has_column st.1 id = true)
  ∧ (∀ r0, r0 ∈ rows df0 →
       ∃ r, r ∈ rows st.1 ∧ r !! EXP_ID_COLUMN = r0 !! EXP_ID_COLUMN)
  ∧ (∀ ind id target t r,
       ind ∈ seen → indicator_id ind = Some id →
       target_dataframe ind = Some target → data !! target = Some (DFrame t) →
       has_column st.1 id = true → r ∈ rows st.1 →
       ¬ has_exp_key t (cell_at EXP_ID_COLUMN r) → r !! id = Some (CNum 0%Qc)).

(** The experiment ids of [df_process]. *)
Definition available (df_process : DataFrame) : list cell :=
  remove_dups (cell_at EXP_ID_COLUMN <$> rows df_process).

End aggregate_terms.

(* ================================================================== *)
(** * Worked data for the aggregator *)
(* ================================================================== *)

Module AggregationScenario.
Import Num Pandas module2.

Definition doe_row (e : string) (level : Z) : gmap string cell :=
  <["exp_id" := CStr e]> (<["automation_level" := CNum (Qc_of_Z level)]> ∅).

Definition sample_doe : DataFrame :=
  mkDataFrame ["exp_id"; "automation_level"]
    [doe_row "exp001" 0; doe_row "exp002" 3; doe_row "exp003" 6].

Definition process_row (e step : string) (ind01 ind02 : Z) : gmap string cell :=
  <["exp_id" := CStr e]> (<["step_name" := CStr step]>
    (<["IND01" := CNum (Qc_of_Z ind01)]> (<["IND02" := CNum (Qc_of_Z ind02)]> ∅))).

(** [df_process] without the rows of [exp003]. *)
Definition df_process_without_exp003 : DataFrame :=
  mkDataFrame ["exp_id"; "step_name"; "IND01"; "IND02"]
    [ process_row "exp001" "comp_A" 50 40; process_row "exp001" "comp_B" 75 60;
      process_row "exp002" "comp_A" 60 50; process_row "exp002" "comp_B" 90 70 ].

Definition product_row (e p : string) (ind03 : Qc) : gmap string cell :=
  <["exp_id" := CStr e]> (<["product_id" := CStr p]> (<["IND03" := CNum ind03]> ∅)).

(** [df_product], which still has rows for [exp003]. *)
Definition sample_df_product : DataFrame :=
  mkDataFrame ["exp_id"; "product_id"; "IND03"]
    [ product_row "exp001" "prod_1" (Scenario.dec 180 100);
      product_row "exp001" "prod_2" (Scenario.dec 255 100);
      product_row "exp002" "prod_1" (Scenario.dec 150 100);
      product_row "exp002" "prod_2" (Scenario.dec 240 100);
      product_row "exp003" "prod_1" (Scenario.dec 190 100);
      product_row "exp003" "prod_2" (Scenario.dec 270 100) ].

Definition data_without_exp003 : gmap string DataValue :=
  <["doe" := DFrame sample_doe]>
    (<["df_process" := DFrame df_process_without_exp003]>
      (<["df_product" := DFrame sample_df_product]>
        (<["indicators" := DConfig Scenario.sample_indicators_config]> ∅))).






End AggregationScenario.

Section scenario_terms.
Import Num Pandas module2 module3 AggregationScenario.

(** The cells of column [c] in the table a stage returns. *)
Definition column_of (out : res DataFrame) (c : string) : list (option cell) :=
  match out with
  | Ok df => (λ r, r !! c) <$> rows df
  | Raise _ => []
  end.

Definition num (n : Z) (d : positive) : option cell := Some (CNum (Scenario.dec n d)).

(** Three experiments with raw values [125, 150, 110] and threshold 1000. *)
Definition df_three : DataFrame :=
  mkDataFrame ["exp_id"; "IND01"; "IND02"; "IND03"]
    [ Scenario.exp_row "exp001" (Scenario.dec 125 1) (Scenario.dec 100 1) (Scenario.dec 525 100);
      Scenario.exp_row "exp002" (Scenario.dec 150 1) (Scenario.dec 120 1) (Scenario.dec 465 100);
      Scenario.exp_row "exp003" (Scenario.dec 110 1) (Scenario.dec 86 1) (Scenario.dec 555 100) ].

End scenario_terms.

Section resolver_terms.
Import Num Pandas module1.


End resolver_terms.

Section quality_terms.
Import Num Pandas module1.
Local Open Scope Qc_scope.

(** A quality bound of a range entry: the default when the key is absent,
    the number when it holds one. *)
Definition bound_or (dflt : Qc) (o : option json) : option Qc :=
  match o with
  | None => Some dflt
  | Some (JNum q) => Some q
  | Some _ => None
  end.

(** The entry contains the quality: [q_min <= quality <= q_max], with
    [quality_min] taken as 0 and [quality_max] as 1 when absent. *)
Definition contains_quality (quality : Qc) (entry : list (string * json)) : Prop :=
  ∃ lo hi, bound_or 0 (assoc "quality_min" entry) = Some lo
           ∧ bound_or 1 (assoc "quality_max" entry) = Some hi
           ∧ lo ≤ quality ∧ quality ≤ hi.

Definition numeric_bounds (entry : list (string * json)) : Prop :=
  is_Some (bound_or 0 (assoc "quality_min" entry))
  ∧ is_Some (bound_or 1 (assoc "quality_max" entry)).

(** Another component, and the component looked for. *)
Definition other_component (step_name : cell) (component : json) : Prop :=
  ∃ name, py_index component "component_name" = Ok name ∧ py_eq name step_name = false.

Definition this_component (step_name : cell) (component : json) : Prop :=
  ∃ name, py_index component "component_name" = Ok name ∧ py_eq name step_name = true.

End quality_terms.

(* ================================================================== *)
(** * Worked data for the resolver: the attribute tables of the test suite *)
(* ================================================================== *)

Module ResolverScenario.
Import Num Pandas module1.

Definition jnum (n : Z) (d : positive) : json := JNum (Scenario.dec n d).

Definition range_fields (lo hi v : json) (name : string) : list (string * json) :=
  [("quality_min", lo); ("quality_max", hi); (name, v)].

Definition range (lo hi v : json) (name : string) : json :=
  JDict (range_fields lo hi v name).

Definition component (name : string) (weight v1 v2 split r1 r2 : json) : json :=
  JDict
    [ ("component_name", JStr name);
      ("fixed_attributes", JDict [("weight", JDict [("value", weight)])]);
      ("quality_dependent_attributes",
        JDict [("component_value",
                 JList [ range (jnum 0 1) (jnum 5 10) v1 "value";
                         range (jnum 5 10) (jnum 1 1) v2 "value" ])]);
      ("end_of_life_options",
        JDict [ ("recycle", range (jnum 0 1) split r1 "circularity_rating");
                ("remanufacture", range split (jnum 1 1) r2 "circularity_rating") ]) ].

Definition comp_A : json :=
  component "comp_A" (jnum 2 1) (jnum 50 1) (jnum 100 1) (jnum 6 10) (jnum 5 10) (jnum 9 10).
Definition comp_B : json :=
  component "comp_B" (jnum 3 1) (jnum 75 1) (jnum 150 1) (jnum 7 10) (jnum 6 10) (jnum 95 100).

Definition process_entry (step : string) (time power : json) : json :=
  JDict [ ("step_name", JStr step); ("disassembly_time", time);
          ("cost_rates", JDict [("running", JDict [("power_rating", power)])]) ].

Definition sample_attributes : list (string * json) :=
  [ ("process", JDict [("process_attributes",
       JList [ process_entry "comp_A" (jnum 10 1) (jnum 2 1);
               process_entry "comp_B" (jnum 15 1) (jnum 3 1) ])]);
    ("product", JDict [("components", JList [comp_A; comp_B])]) ].

Definition sample_data : Data := mkData (Some sample_attributes).

Definition attr_structure : gmap string string :=
  <["process" := "process_attributes"]>
    (<["systems" := "system_configurations"]> (<["product" := "components"]> ∅)).

(** A row of [df_process] for component [comp_B] with quality 0.5. *)
Definition sample_row : gmap string cell :=
  <["exp_id" := CStr "exp001"]> (<["step_name" := CStr "comp_B"]>
    (<["processing_time" := CNum (Scenario.dec 10 1)]>
      (<["station_cost" := CNum (Scenario.dec 5 1)]>
        (<["component_quality" := CNum (Scenario.dec 5 10)]> ∅)))).

Definition no_config : VarConfig :=
  mkVarConfig None None None None None None None None.

Definition from_column (c : string) : VarConfig :=
  mkVarConfig (Some "dataframe") (Some c) None None None None None None.

Definition from_attribute (f : string) (cols : list string) (path : string) : VarConfig :=
  mkVarConfig (Some "attribute_file") None (Some f) (Some cols) (Some path) None None None.

Definition from_quality (kind path value_name : string) : VarConfig :=
  mkVarConfig (Some kind) None (Some "attributes_product.json") None (Some path)
              (Some "step_name") (Some "component_quality") (Some value_name).

End ResolverScenario.

Section resolver_data.
Import Num Pandas module1 ResolverScenario.

(** The variable maps of the formula tests. *)
Definition time_and_cost : list (string * VarConfig) :=
  [("time", from_column "processing_time"); ("cost", from_column "station_cost")].

Definition time_and_missing : list (string * VarConfig) :=
  [("time", from_column "processing_time");
   ("missing_var", from_column "nonexistent_column")].

(** The number a lookup returns, when it returns one. *)
Definition json_of (out : res pyval) : option Qc :=
  match out with
  | Ok (VJson (JNum q)) => Some q
  | Ok (VCell (CNum q)) => Some q
  | _ => None
  end.

End resolver_data.

(* ================================================================== *)
(** * Proofs *)
(* ================================================================== *)

(** ** Strings *)

Section string_facts.

Lemma length_append (s t : string) :
  String.length (s +:+ t) = String.length s + String.length t.
Proof. induction s as [|a s IH]; simpl; [done | by rewrite IH]. Qed.

(** Appending a fixed suffix is injective. *)
Lemma append_suffix_inj (t s1 s2 : string) : s1 +:+ t = s2 +:+ t → s1 = s2.
Proof.
  revert s2. induction s1 as [|a s1 IH]; intros [|b s2] H; simpl in *.
  - done.
  - apply (f_equal String.length) in H. simpl in H.
    rewrite !length_append in H. simpl in H. lia.
  - apply (f_equal String.length) in H. simpl in H.
    rewrite !length_append in H. simpl in H. lia.
  - injection H as -> H. f_equal. by apply IH.
Qed.

Lemma last_char_append (s t : string) :
  t ≠ EmptyString → last_char (s +:+ t) = last_char t.
Proof.
  intros Ht. induction s as [|a s IH]; [done|].
  simpl. rewrite IH. destruct (s +:+ t) eqn:E; [|done].
  destruct s; simpl in E; [done | discriminate].
Qed.

End string_facts.

(** ** Results *)

Section res_facts.
Context {A B : Type}.

Lemma bind_Ok (a : A) (f : A → res B) : (Ok a ≫= f) = f a.
Proof. done. Qed.

Lemma traverse_length (f : A → res B) l ys :
  traverse f l = Ok ys → length ys = length l.
Proof.
  revert ys. induction l as [|x l IH]; intros ys; simpl.
  - by intros [= <-].
  - destruct (f x) as [y|]; simpl; [|done].
    destruct (traverse f l) as [ys'|]; simpl; [|done].
    intros [= <-]. simpl. f_equal. by apply IH.
Qed.

Lemma traverse_lookup (f : A → res B) l ys i x :
  traverse f l = Ok ys → l !! i = Some x → ∃ y, ys !! i = Some y ∧ f x = Ok y.
Proof.
  revert ys i. induction l as [|x' l IH]; intros ys i; simpl; [done|].
  destruct (f x') as [y|] eqn:Hf; simpl; [|done].
  destruct (traverse f l) as [ys'|]; simpl; [|done].
  intros [= <-]. destruct i as [|i]; simpl.
  - intros [= ->]. eauto.
  - intros Hi. by apply IH.
Qed.

Lemma traverse_ok (f : A → res B) l :
  (∀ x, x ∈ l → ∃ y, f x = Ok y) → ∃ ys, traverse f l = Ok ys.
Proof.
  induction l as [|x l IH]; intros H; simpl; [by eexists|].
  destruct (H x) as [y ->]; [by left|]. simpl.
  destruct IH as [ys ->]; [intros; apply H; by right|]. simpl. by eexists.
Qed.

End res_facts.

(** ** Frames: what an update of some columns leaves alone *)

Section frame_facts.
Import Num Pandas.

Lemma same_outside_refl P df : same_outside P df df.
Proof. split_and!; [done..|]. intros; by simplify_eq. Qed.

Lemma same_outside_trans P df1 df2 df3 :
  same_outside P df1 df2 → same_outside P df2 df3 → same_outside P df1 df3.
Proof.
  intros (Hl1 & Hc1 & Hr1) (Hl2 & Hc2 & Hr2). split_and!.
  - congruence.
  - intros c Hc. rewrite Hc2, Hc1; done.
  - intros i r r' c Hc Hr Hr'.
    destruct (rows df2 !! i) as [r2|] eqn:E.
    + rewrite (Hr2 i r2 r' c), (Hr1 i r r2 c); done.
    + apply lookup_ge_None in E. apply lookup_lt_Some in Hr. lia.
Qed.

Lemma same_outside_weaken (P Q : string → Prop) df df' :
  (∀ c, P c → Q c) → same_outside P df df' → same_outside Q df df'.
Proof.
  intros HPQ (Hl & Hc & Hr). split_and!; [done|..].
  - intros c Hn. apply Hc. naive_solver.
  - intros i r r' c Hn. apply Hr. naive_solver.
Qed.

Lemma has_column_add c c' cols :
  c ≠ c' → bool_decide (c ∈ add_column c' cols) = bool_decide (c ∈ cols).
Proof.
  intros Hne. unfold add_column. destruct (bool_decide (c' ∈ cols)); [done|].
  apply bool_decide_ext. rewrite elem_of_app, list_elem_of_singleton. tauto.
Qed.

Lemma has_column_add_eq c cols : bool_decide (c ∈ add_column c cols) = true.
Proof.
  apply bool_decide_eq_true. unfold add_column.
  destruct (bool_decide (c ∈ cols)) eqn:E; [by apply bool_decide_eq_true in E|].
  apply elem_of_app. right. by apply list_elem_of_singleton.
Qed.

Lemma rows_set_column c vals df i :
  rows (set_column c vals df) !! i
  = (λ r, <[c := default CNaN (vals !! i)]> r) <$> rows df !! i.
Proof. unfold set_column; simpl. by rewrite list_lookup_imap. Qed.

Lemma rows_set_column_const c v df i :
  rows (set_column_const c v df) !! i = (λ r, <[c := v]> r) <$> rows df !! i.
Proof. unfold set_column_const; simpl. by rewrite list_lookup_fmap. Qed.

Lemma set_column_same_outside c vals df :
  same_outside (λ c', c' = c) df (set_column c vals df).
Proof.
  split_and!.
  - unfold set_column; simpl. by rewrite length_imap.
  - intros c' Hc'. unfold has_column, set_column; simpl. by apply has_column_add.
  - intros i r r' c' Hc' Hr. rewrite rows_set_column, Hr. simpl.
    intros [= <-]. by rewrite lookup_insert_ne.
Qed.

Lemma set_column_const_same_outside c v df :
  same_outside (λ c', c' = c) df (set_column_const c v df).
Proof.
  split_and!.
  - unfold set_column_const; simpl. by rewrite length_fmap.
  - intros c' Hc'. unfold has_column, set_column_const; simpl. by apply has_column_add.
  - intros i r r' c' Hc' Hr. rewrite rows_set_column_const, Hr. simpl.
    intros [= <-]. by rewrite lookup_insert_ne.
Qed.

Lemma same_outside_get_column P df df' c :
  same_outside P df df' → ¬ P c → get_column df' c = get_column df c.
Proof.
  intros (Hl & Hc & Hr) Hn. unfold get_column. rewrite (Hc c Hn).
  destruct (has_column df c); [|done]. f_equal.
  apply list_eq. intros i. rewrite !list_lookup_fmap.
  destruct (rows df !! i) as [r|] eqn:E, (rows df' !! i) as [r'|] eqn:E'; simpl.
  - unfold cell_at. by rewrite (Hr i r r' c).
  - apply lookup_ge_None in E'. apply lookup_lt_Some in E. lia.
  - apply lookup_ge_None in E. apply lookup_lt_Some in E'. lia.
  - done.
Qed.

Lemma same_outside_numeric_column P df df' c :
  same_outside P df df' → ¬ P c → numeric_column df' c = numeric_column df c.
Proof.
  intros H Hn. unfold numeric_column. by rewrite (same_outside_get_column P df df' c).
Qed.

Lemma numeric_column_lookup df c vals i r :
  numeric_column df c = Ok vals → rows df !! i = Some r →
  ∃ v, vals !! i = Some v ∧ as_float (cell_at c r) = Ok v.
Proof.
  unfold numeric_column, get_column. destruct (has_column df c); simpl; [|done].
  intros Ht Hr. eapply traverse_lookup; [done|].
  by rewrite list_lookup_fmap, Hr.
Qed.

Lemma numeric_column_length df c vals :
  numeric_column df c = Ok vals → length vals = length (rows df).
Proof.
  unfold numeric_column, get_column. destruct (has_column df c); simpl; [|done].
  intros Ht. apply traverse_length in Ht. by rewrite length_fmap in Ht.
Qed.

End frame_facts.

(** ** The threshold loop *)

Section threshold_facts.
Import Num Pandas module2.

Lemma flag_col_inj id id' : flag_col id = flag_col id' → id = id'.
Proof. apply append_suffix_inj. Qed.

Lemma flag_col_last id : last_char (flag_col id) = last_char "d".
Proof. unfold flag_col. by rewrite last_char_append. Qed.

Lemma flag_col_not_summary id :
  flag_col id ≠ "threshold_violations" ∧ flag_col id ≠ "is_feasible".
Proof.
  split; intros H; apply (f_equal last_char) in H;
    rewrite flag_col_last in H; discriminate.
Qed.

(** One iteration either leaves the state alone or writes one flag column. *)
Lemma threshold_step_cases st ind :
  threshold_step st ind = st
  ∨ ∃ id thr dir vals,
      indicator_id ind = Some id ∧ threshold ind = Some thr
      ∧ direction ind = Some dir ∧ has_column st.1 id = true
      ∧ numeric_column st.1 id = Ok vals
      ∧ threshold_step st ind
        = (set_column (flag_col id) (threshold_flags dir thr vals) st.1,
           st.2 ++ [flag_col id]).
Proof.
  unfold threshold_step, threshold_body.
  destruct (indicator_id ind) as [id|]; simpl; [|by left].
  destruct (threshold ind) as [thr|]; simpl; [|by left].
  destruct (direction ind) as [dir|]; simpl; [|by left].
  destruct (has_column st.1 id) eqn:Hc; simpl; [|left; by destruct st].
  destruct (numeric_column st.1 id) as [vals|] eqn:Hn; simpl; [|by left].
  right. by exists id, thr, dir, vals.
Qed.

(** The loop changes nothing but flag columns. *)
Lemma threshold_loop_frame inds : ∀ st,
  same_outside (flag_cols_of inds) st.1 (foldl threshold_step st inds).1.
Proof.
  induction inds as [|ind inds IH]; intros st; simpl.
  - apply same_outside_refl.
  - eapply same_outside_trans; last first.
    + eapply same_outside_weaken; [|apply IH].
      intros c (ind' & id & ? & ? & ?). exists ind', id. split; [by right|done].
    + destruct (threshold_step_cases st ind)
        as [->|(id & thr & dir & vals & Hid & _ & _ & _ & _ & ->)].
      * apply same_outside_refl.
      * simpl. eapply same_outside_weaken; [|apply set_column_same_outside].
        intros c ->. exists ind, id. split; [by left|done].
Qed.

(** When no indicator id is itself a flag column name, the columns that
    are checked are those of the indicators that [checked] selects. *)
Lemma threshold_loop_cols df0 inds : ∀ st,
  (∀ ind id, ind ∈ inds → indicator_id ind = Some id → ¬ flag_cols_of inds id) →
  (∀ ind id, ind ∈ inds → indicator_id ind = Some id →
     has_column st.1 id = has_column df0 id
     ∧ numeric_column st.1 id = numeric_column df0 id) →
  (foldl threshold_step st inds).2 = st.2 ++ (flag_col <$> omap (checked df0) inds).
Proof.
  induction inds as [|ind inds IH]; intros st Hnc Hsame; simpl.
  - by rewrite app_nil_r.
  - rewrite IH.
    + unfold checked at 2. unfold threshold_step, threshold_body.
      destruct (indicator_id ind) as [id|] eqn:Hid; simpl; [|done].
      destruct (Hsame ind id) as [Hc Hn]; [by left|done|].
      destruct (threshold ind) as [thr|]; simpl; [|done].
      destruct (direction ind) as [dir|]; simpl; [|done].
      rewrite Hc, Hn.
      destruct (has_column df0 id); simpl; [|by destruct st].
      destruct (numeric_column df0 id) as [vals|]; simpl; [|done].
      by rewrite <-app_assoc.
    + intros ind' id' Hin Hid' (ind2 & id2 & ? & ? & ?).
      apply (Hnc ind' id'); [by right|done|]. exists ind2, id2. split; [by right|done].
    + intros ind' id' Hin Hid'.
      assert (¬ flag_cols_of [ind] id') as Hnf.
      { intros (ind2 & id2 & Hin2 & ? & ?). apply list_elem_of_singleton in Hin2 as ->.
        apply (Hnc ind' id'); [by right|done|]. exists ind, id2. split; [by left|done]. }
      pose proof (threshold_loop_frame [ind] st) as Hf. simpl in Hf.
      destruct (Hsame ind' id') as [Hc Hn]; [by right|done|].
      rewrite <-Hc, <-Hn. split.
      * by apply Hf.
      * by eapply same_outside_numeric_column.
Qed.

End threshold_facts.

Section threshold_theorems.
Import Num Pandas module2.

Lemma threshold_flags_fmap dir thr vals :
  threshold_flags dir thr vals = (λ v, CBool (flag_value dir thr v)) <$> vals.
Proof.
  unfold threshold_flags, flag_value.
  destruct (decide (dir = "minimize")) as [->|]; [done|].
  by destruct (decide (dir = "maximize")).
Qed.

Lemma float_column_numeric df c :
  has_column df c = true →
  (∀ r, r ∈ rows df → ∃ v, as_float (cell_at c r) = Ok v) →
  ∃ vals, numeric_column df c = Ok vals.
Proof.
  intros Hc Hfl. unfold numeric_column, get_column. rewrite Hc. simpl.
  apply traverse_ok. intros x (r & -> & Hr)%list_elem_of_fmap. by apply Hfl.
Qed.

Lemma elem_of_ids (inds : list Indicator) ind id :
  ind ∈ inds → indicator_id ind = Some id → id ∈ omap indicator_id inds.
Proof. intros. apply list_elem_of_omap. eauto. Qed.

(** After the loop, the flag column of a checked indicator holds the
    comparison of the value the frame had on entry. *)
Lemma flag_after_loop df0 inds ind id thr dir i r0 v :
  ind ∈ inds →
  indicator_id ind = Some id → threshold ind = Some thr → direction ind = Some dir →
  NoDup (omap indicator_id inds) →
  (∀ id', id' ∈ omap indicator_id inds → id ≠ flag_col id') →
  has_column df0 id = true →
  (∀ r, r ∈ rows df0 → ∃ v, as_float (cell_at id r) = Ok v) →
  rows df0 !! i = Some r0 → as_float (cell_at id r0) = Ok v →
  ∃ r, rows (foldl threshold_step (df0, []) inds).1 !! i = Some r
       ∧ r !! flag_col id = Some (CBool (flag_value dir thr v)).
Proof.
  intros Hin Hid Hthr Hdir Hnd Hnc Hcol Hfl Hr0 Hv.
  apply list_elem_of_split in Hin as (pre & post & ->).
  rewrite foldl_app. simpl.
  set (st1 := foldl threshold_step (df0, []) pre).
  pose proof (threshold_loop_frame pre (df0, [])) as Hf1. fold st1 in Hf1. simpl in Hf1.
  assert (¬ flag_cols_of pre id) as Hn1.
  { intros (ind' & id' & Hin' & Hid' & ->). apply (Hnc id'); [|done].
    eapply elem_of_ids; [|done]. apply elem_of_app. by left. }
  destruct (float_column_numeric df0 id Hcol Hfl) as [vals Hvals].
  assert (has_column st1.1 id = true) as Hc1.
  { destruct Hf1 as (_ & Hc & _). by rewrite Hc. }
  assert (numeric_column st1.1 id = Ok vals) as Hn.
  { by rewrite (same_outside_numeric_column _ df0 st1.1 id Hf1 Hn1). }
  assert (threshold_step st1 ind
          = (set_column (flag_col id) (threshold_flags dir thr vals) st1.1,
             st1.2 ++ [flag_col id])) as Hstep.
  { unfold threshold_step, threshold_body. rewrite Hid, Hthr, Hdir. simpl.
    rewrite Hc1. simpl. by rewrite Hn. }
  rewrite Hstep.
  set (st2 := (set_column _ _ _, _)).
  pose proof (threshold_loop_frame post st2) as Hf2.
  assert (¬ flag_cols_of post (flag_col id)) as Hn2.
  { intros (ind' & id' & Hin' & Hid' & Heq). apply flag_col_inj in Heq as <-.
    rewrite omap_app in Hnd. simpl in Hnd. rewrite Hid in Hnd.
    apply NoDup_app in Hnd as (_ & _ & Hnd). apply NoDup_cons in Hnd as [Hnd _].
    apply Hnd. by eapply elem_of_ids. }
  destruct (numeric_column_lookup df0 id vals i r0 Hvals Hr0) as (v' & Hv' & Hv'').
  assert (v' = v) as -> by congruence.
  destruct Hf1 as (Hl1 & _ & _). destruct Hf2 as (Hl2 & _ & Hr2).
  destruct (rows st1.1 !! i) as [r1|] eqn:Hr1; last first.
  { apply lookup_ge_None in Hr1. apply lookup_lt_Some in Hr0. lia. }
  assert (rows st2.1 !! i
          = Some (<[flag_col id := CBool (flag_value dir thr v)]> r1)) as Hrow2.
  { unfold st2. cbn [fst]. rewrite rows_set_column, Hr1. simpl.
    by rewrite threshold_flags_fmap, list_lookup_fmap, Hv'. }
  destruct (rows (foldl threshold_step st2 post).1 !! i) as [r3|] eqn:Hr3; last first.
  { apply lookup_ge_None in Hr3. apply lookup_lt_Some in Hrow2. lia. }
  exists r3. split; [done|].
  rewrite (Hr2 i _ r3 (flag_col id) Hn2 Hrow2 Hr3). by rewrite lookup_insert_eq.
Qed.

Lemma apply_threshold_filters_unfold df0 cfg inds :
  df_empty df0 = false → indicators cfg = Some inds →
  apply_threshold_filters df0 cfg
  = Ok (add_summary (foldl threshold_step (df0, []) inds).1
                    (foldl threshold_step (df0, []) inds).2).
Proof.
  intros He Hi. unfold apply_threshold_filters. rewrite He, Hi.
  destruct (foldl threshold_step (df0, []) inds) as [df cols]. simpl.
  by destruct cols.
Qed.

Lemma Qc_of_Z_0 : Qc_of_Z 0 = 0%Qc.
Proof. by apply Qc_is_canon. Qed.

Lemma Qc_of_nat_eq_0 (n : nat) : Qc_of_Z (Z.of_nat n) = 0%Qc ↔ n = 0.
Proof.
  split; [|intros ->; apply Qc_of_Z_0].
  intros H. apply (f_equal this) in H. simpl in H.
  unfold inject_Z in H. injection H as H. lia.
Qed.

(** A row of the result of [add_summary], in terms of the row it comes from. *)
Lemma add_summary_row df cols i r :
  rows df !! i = Some r →
  rows (add_summary df cols) !! i
  = Some (<["is_feasible" := CBool (bool_decide (count_violations cols r = 0))]>
          (<["threshold_violations" := nat_cell (count_violations cols r)]> r)).
Proof.
  intros Hr. unfold add_summary. destruct cols as [|c cols].
  - rewrite rows_set_column_const, rows_set_column_const, Hr.
    change (count_violations [] r) with 0.
    assert (nat_cell 0 = CNum 0%Qc) as -> by (unfold nat_cell; f_equal; apply Qc_of_Z_0).
    done.
  - set (cs := c :: cols). cbv zeta.
    rewrite rows_set_column, rows_set_column, Hr.
    rewrite list_lookup_fmap, rows_set_column, Hr.
    rewrite list_lookup_fmap, Hr. cbn [fmap option_fmap option_map default].
    unfold no_violation. rewrite lookup_insert_eq. unfold nat_cell. cbv [id].
    do 3 f_equal. apply bool_decide_ext. apply Qc_of_nat_eq_0.
Qed.

Lemma add_summary_length df cols :
  length (rows (add_summary df cols)) = length (rows df).
Proof.
  unfold add_summary. destruct cols; simpl.
  - by rewrite !length_fmap.
  - by rewrite !length_imap.
Qed.

End threshold_theorems.

(** Membership in a literal list, by cases. *)
Ltac elem_cases H :=
  repeat (apply elem_of_cons in H as [H|H]; [subst|]);
  try (by apply elem_of_nil in H).

(* ================================================================== *)
(** * Feasibility: the claims on [apply_threshold_filters] *)
(* ================================================================== *)

Section threshold_claims.
Import Num Pandas module2.

(** C2.  For an indicator of the configuration and every experiment row,
    the flag column [{indicator_id}_in_threshold] holds
    [value <= threshold] when the direction is ["minimize"],
    [value >= threshold] when it is ["maximize"], and [value <= threshold]
    again for any other direction string.  The indicator ids are distinct,
    no id is the flag column name of another one, and the indicator's
    column is a float column of the frame. *)
Theorem threshold_flag_follows_direction
    (df0 : DataFrame) (cfg : IndicatorsConfig) (inds : list Indicator)
    (ind : Indicator) (id dir : string) (thr : Qc) :
  df_empty df0 = false →
  indicators cfg = Some inds →
  ind ∈ inds →
  indicator_id ind = Some id → threshold ind = Some thr → direction ind = Some dir →
  NoDup (omap indicator_id inds) →
  (∀ id', id' ∈ omap indicator_id inds → id ≠ id' +:+ "_in_threshold") →
  has_column df0 id = true →
  (∀ r, r ∈ rows df0 → ∃ v, as_float (cell_at id r) = Ok v) →
  ∃ df', apply_threshold_filters df0 cfg = Ok df'
    ∧ length (rows df') = length (rows df0)
    ∧ ∀ i r0 v, rows df0 !! i = Some r0 → as_float (cell_at id r0) = Ok v →
        ∃ r', rows df' !! i = Some r'
          ∧ (dir = "minimize" →
               r' !! (id +:+ "_in_threshold") = Some (CBool (float_le v (Some thr))))
          ∧ (dir = "maximize" →
               r' !! (id +:+ "_in_threshold") = Some (CBool (float_le (Some thr) v)))
          ∧ (dir ≠ "minimize" → dir ≠ "maximize" →
               r' !! (id +:+ "_in_threshold") = Some (CBool (float_le v (Some thr)))).
Proof.
  intros He Hi Hin Hid Hthr Hdir Hnd Hnc Hcol Hfl.
  eexists. split; [by apply apply_threshold_filters_unfold|].
  pose proof (threshold_loop_frame inds (df0, [])) as (Hlen & _ & _). simpl in Hlen.
  split; [by rewrite add_summary_length|].
  intros i r0 v Hr0 Hv.
  destruct (flag_after_loop df0 inds ind id thr dir i r0 v) as (r & Hr & Hflag); try done.
  eexists. split; [by apply add_summary_row|].
  destruct (flag_col_not_summary id) as [Hv1 Hv2].
  assert (∀ b, flag_value dir thr v = b →
    <["is_feasible" := CBool (bool_decide
        (count_violations (foldl threshold_step (df0, []) inds).2 r = 0))]>
      (<["threshold_violations" :=
          nat_cell (count_violations (foldl threshold_step (df0, []) inds).2 r)]> r)
    !! (id +:+ "_in_threshold") = Some (CBool b)) as Hgo.
  { intros b <-. rewrite !lookup_insert_ne by done. exact Hflag. }
  unfold flag_value in Hgo. split_and!.
  - intros ->. apply Hgo. by rewrite decide_False.
  - intros ->. apply Hgo. by rewrite decide_True.
  - intros _ Hne. apply Hgo. by rewrite decide_False.
Qed.

Lemma threshold_flag_follows_direction_witness :
  ∃ df', apply_threshold_filters Scenario.df_aggregated Scenario.sample_indicators_config = Ok df'
    ∧ length (rows df') = 3
    ∧ ∀ i r0 v, rows Scenario.df_aggregated !! i = Some r0 →
        as_float (cell_at "IND01" r0) = Ok v →
        ∃ r', rows df' !! i = Some r'
          ∧ r' !! "IND01_in_threshold" = Some (CBool (float_le v (Some (Scenario.dec 1000 1)))).
Proof.
  destruct (threshold_flag_follows_direction
              Scenario.df_aggregated Scenario.sample_indicators_config
              [Scenario.IND01; Scenario.IND02; Scenario.IND03]
              Scenario.IND01 "IND01" "minimize" (Scenario.dec 1000 1))
    as (df' & Hdf & Hlen & Hrows).
  - reflexivity.
  - reflexivity.
  - by left.
  - reflexivity.
  - reflexivity.
  - reflexivity.
  - compute_done.
  - intros id' Hin. simpl in Hin. elem_cases Hin; discriminate.
  - reflexivity.
  - intros r Hin. unfold Scenario.df_aggregated in Hin. simpl in Hin.
    elem_cases Hin; by eexists.
  - exists df'. split_and!; [done..|].
    intros i r0 v Hr0 Hv. destruct (Hrows i r0 v Hr0 Hv) as (r' & Hr' & Hmin & _).
    exists r'. split; [done|]. by apply Hmin.
Defined.

Lemma count_violations_ids (r r' : gmap string cell) (ids : list string) :
  (∀ id, r' !! flag_col id = r !! flag_col id) →
  count_violations (flag_col <$> ids) r
  = length (filter (λ id, r' !! (id +:+ "_in_threshold") = Some (CBool false)) ids).
Proof.
  intros Heq. unfold count_violations.
  induction ids as [|id ids IH]; [done|].
  rewrite fmap_cons, !filter_cons.
  change (id +:+ "_in_threshold") with (flag_col id). rewrite Heq.
  destruct (decide _); simpl; by rewrite IH.
Qed.

(** C3.  After threshold filtering, in every experiment row the violation
    count is the number of checked indicators whose flag is false, and
    [is_feasible] is true exactly when that count is 0; when no indicator
    was checked, the count is 0 and [is_feasible] is true.  No indicator id
    is the flag column name of another one. *)
Theorem violation_count_and_feasibility
    (df0 : DataFrame) (cfg : IndicatorsConfig) (inds : list Indicator) :
  df_empty df0 = false →
  indicators cfg = Some inds →
  (∀ id id', id ∈ omap indicator_id inds → id' ∈ omap indicator_id inds →
     id ≠ id' +:+ "_in_threshold") →
  ∃ df', apply_threshold_filters df0 cfg = Ok df'
    ∧ length (rows df') = length (rows df0)
    ∧ ∀ r', r' ∈ rows df' →
        let n := length (filter (λ id, r' !! (id +:+ "_in_threshold") = Some (CBool false))
                                (omap (checked df0) inds)) in
        r' !! "threshold_violations" = Some (nat_cell n)
        ∧ r' !! "is_feasible" = Some (CBool (bool_decide (n = 0)))
        ∧ (omap (checked df0) inds = [] →
             r' !! "threshold_violations" = Some (CNum 0%Qc)
             ∧ r' !! "is_feasible" = Some (CBool true)).
Proof.
  intros He Hi Hnc.
  eexists. split; [by apply apply_threshold_filters_unfold|].
  pose proof (threshold_loop_frame inds (df0, [])) as (Hlen & _ & _). simpl in Hlen.
  split; [by rewrite add_summary_length|].
  intros r' Hr'.
  apply list_elem_of_lookup in Hr' as [i Hr'].
  destruct (rows (foldl threshold_step (df0, []) inds).1 !! i) as [r|] eqn:Hr; last first.
  { apply lookup_ge_None in Hr. apply lookup_lt_Some in Hr'.
    rewrite add_summary_length in Hr'. lia. }
  rewrite (add_summary_row _ _ i r Hr) in Hr'. injection Hr' as <-.
  assert ((foldl threshold_step (df0, []) inds).2
          = flag_col <$> omap (checked df0) inds) as ->.
  { rewrite (threshold_loop_cols df0 inds (df0, [])); [done| |done].
    intros ind id Hin Hid (ind' & id' & Hin' & Hid' & ->).
    apply (Hnc (flag_col id') id');
      [exact (elem_of_ids _ _ _ Hin Hid) | exact (elem_of_ids _ _ _ Hin' Hid') | done]. }
  cbv zeta.
  set (m := count_violations (flag_col <$> omap (checked df0) inds) r).
  assert (m = length (filter
              (λ id, <["is_feasible" := CBool (bool_decide (m = 0))]>
                      (<["threshold_violations" := nat_cell m]> r)
                     !! (id +:+ "_in_threshold") = Some (CBool false))
              (omap (checked df0) inds))) as Hcount.
  { apply count_violations_ids. intros id.
    destruct (flag_col_not_summary id) as [Hv1 Hv2].
    by rewrite !lookup_insert_ne. }
  rewrite <-Hcount. split_and!.
  - rewrite lookup_insert_ne by done. by rewrite lookup_insert_eq.
  - by rewrite lookup_insert_eq.
  - intros Hnil. assert (m = 0) as Hm by (unfold m; by rewrite Hnil).
    clear Hcount. clearbody m. subst m. split.
    + rewrite lookup_insert_ne by done. rewrite lookup_insert_eq.
      unfold nat_cell. do 2 f_equal. apply Qc_of_Z_0.
    + by rewrite lookup_insert_eq.
Qed.

Lemma violation_count_and_feasibility_witness :
  ∃ df', apply_threshold_filters Scenario.df_aggregated Scenario.sample_indicators_config = Ok df'
    ∧ length (rows df') = 3.
Proof.
  destruct (violation_count_and_feasibility
              Scenario.df_aggregated Scenario.sample_indicators_config
              [Scenario.IND01; Scenario.IND02; Scenario.IND03])
    as (df' & Hdf & Hlen & _).
  - reflexivity.
  - reflexivity.
  - intros id id' Hin Hin'. simpl in Hin, Hin'.
    elem_cases Hin; elem_cases Hin'; discriminate.
  - exists df'. by split.
Defined.

End threshold_claims.

(* ================================================================== *)
(** * Normalisation: the loop of [normalize_indicators] *)
(* ================================================================== *)

Section normalize_facts.
Import Num Pandas module2.

Lemma norm_col_inj id id' : norm_col id = norm_col id' → id = id'.
Proof. apply append_suffix_inj. Qed.

Lemma normalize_step_ok df ind id dir thr vals :
  indicator_id ind = Some id → direction ind = Some dir → threshold ind = Some thr →
  has_column df id = true → numeric_column df id = Ok vals →
  same_outside (λ c, c = norm_col id) df (normalize_step df ind)
  ∧ ∀ i r v, rows df !! i = Some r → vals !! i = Some v →
      rows (normalize_step df ind) !! i
      = Some (<[norm_col id := norm_cell dir thr vals v]> r).
Proof.
  intros Hid Hdir Hthr Hc Hn. unfold normalize_step, normalize_body.
  rewrite Hid, Hdir, Hthr. simpl. rewrite Hc. simpl. rewrite Hn. simpl. split.
  - destruct (degenerate _ _).
    + apply set_column_const_same_outside.
    + apply set_column_same_outside.
  - intros i r v Hr Hv. unfold norm_cell. destruct (degenerate _ _).
    + by rewrite rows_set_column_const, Hr.
    + rewrite rows_set_column, Hr. simpl. by rewrite list_lookup_fmap, Hv.
Qed.

Lemma normalize_step_cases df ind :
  normalize_step df ind = df
  ∨ ∃ id, indicator_id ind = Some id
          ∧ same_outside (λ c, c = norm_col id) df (normalize_step df ind).
Proof.
  destruct (indicator_id ind) as [id|] eqn:Hid; last first.
  { left. unfold normalize_step, normalize_body. by rewrite Hid. }
  destruct (direction ind) as [dir|] eqn:Hdir; last first.
  { left. unfold normalize_step, normalize_body. by rewrite Hid, Hdir. }
  destruct (threshold ind) as [thr|] eqn:Hthr; last first.
  { left. unfold normalize_step, normalize_body. by rewrite Hid, Hdir, Hthr. }
  destruct (has_column df id) eqn:Hc; last first.
  { left. unfold normalize_step, normalize_body. rewrite Hid, Hdir, Hthr. simpl.
    by rewrite Hc. }
  destruct (numeric_column df id) as [vals|] eqn:Hn; last first.
  { left. unfold normalize_step, normalize_body. rewrite Hid, Hdir, Hthr. simpl.
    rewrite Hc. simpl. by rewrite Hn. }
  right. exists id. split; [done|].
  by destruct (normalize_step_ok df ind id dir thr vals).
Qed.

Lemma normalize_loop_frame inds : ∀ df,
  same_outside (norm_cols_of inds) df (foldl normalize_step df inds).
Proof.
  induction inds as [|ind inds IH]; intros df; simpl.
  - apply same_outside_refl.
  - eapply same_outside_trans; last first.
    + eapply same_outside_weaken; [|apply IH].
      intros c (ind' & id & ? & ? & ?). exists ind', id. split; [by right|done].
    + destruct (normalize_step_cases df ind) as [->|(id & Hid & Hs)].
      * apply same_outside_refl.
      * eapply same_outside_weaken; [|apply Hs].
        intros c ->. exists ind, id. split; [by left|done].
Qed.

(** After the loop, the normalised column of an indicator holds the cell
    computed from the values its column had on entry. *)
Lemma norm_after_loop df0 inds ind id thr dir vals i r0 v :
  ind ∈ inds →
  indicator_id ind = Some id → threshold ind = Some thr → direction ind = Some dir →
  NoDup (omap indicator_id inds) →
  (∀ id', id' ∈ omap indicator_id inds → id ≠ norm_col id') →
  has_column df0 id = true →
  numeric_column df0 id = Ok vals →
  rows df0 !! i = Some r0 → vals !! i = Some v →
  ∃ r, rows (foldl normalize_step df0 inds) !! i = Some r
       ∧ r !! norm_col id = Some (norm_cell dir thr vals v).
Proof.
  intros Hin Hid Hthr Hdir Hnd Hnc Hcol Hvals Hr0 Hv.
  apply list_elem_of_split in Hin as (pre & post & ->).
  rewrite foldl_app. simpl.
  set (df1 := foldl normalize_step df0 pre).
  pose proof (normalize_loop_frame pre df0) as Hf1. fold df1 in Hf1.
  assert (¬ norm_cols_of pre id) as Hn1.
  { intros (ind' & id' & Hin' & Hid' & ->). apply (Hnc id'); [|done].
    eapply elem_of_ids; [|done]. apply elem_of_app. by left. }
  assert (has_column df1 id = true) as Hc1.
  { destruct Hf1 as (_ & Hc & _). by rewrite Hc. }
  assert (numeric_column df1 id = Ok vals) as Hn.
  { by rewrite (same_outside_numeric_column _ df0 df1 id Hf1 Hn1). }
  destruct (normalize_step_ok df1 ind id dir thr vals) as [_ Hrow]; try done.
  set (df2 := normalize_step df1 ind) in *.
  pose proof (normalize_loop_frame post df2) as Hf2.
  assert (¬ norm_cols_of post (norm_col id)) as Hn2.
  { intros (ind' & id' & Hin' & Hid'' & Heq). apply norm_col_inj in Heq as <-.
    rewrite omap_app in Hnd. simpl in Hnd. rewrite Hid in Hnd.
    apply NoDup_app in Hnd as (_ & _ & Hnd). apply NoDup_cons in Hnd as [Hnd _].
    apply Hnd. by eapply elem_of_ids. }
  destruct Hf1 as (Hl1 & _ & _). destruct Hf2 as (Hl2 & _ & Hr2).
  destruct (rows df1 !! i) as [r1|] eqn:Hr1; last first.
  { apply lookup_ge_None in Hr1. apply lookup_lt_Some in Hr0. lia. }
  pose proof (Hrow i r1 v Hr1 Hv) as Hrow2.
  destruct (rows (foldl normalize_step df2 post) !! i) as [r3|] eqn:Hr3; last first.
  { apply lookup_ge_None in Hr3. apply lookup_lt_Some in Hrow2. lia. }
  exists r3. split; [done|].
  rewrite (Hr2 i _ r3 (norm_col id) Hn2 Hrow2 Hr3). by rewrite lookup_insert_eq.
Qed.

End normalize_facts.

(** ** Numeric facts *)

Section numeric_facts.
Import Num.
Local Open Scope Qc_scope.

Lemma series_min_elem (vals : list float) m : series_min vals = Some m → Some m ∈ vals.
Proof.
  revert m. induction vals as [|v vals IH]; intros m; simpl; [done|].
  destruct v as [x|]; [|intros H; right; by apply IH].
  fold (series_min vals). destruct (series_min vals) as [y|].
  - destruct (decide (x ≤ y)); intros [= <-]; [by left|right; by apply IH].
  - intros [= <-]. by left.
Qed.

Lemma series_max_elem (vals : list float) m : series_max vals = Some m → Some m ∈ vals.
Proof.
  revert m. induction vals as [|v vals IH]; intros m; simpl; [done|].
  destruct v as [x|]; [|intros H; right; by apply IH].
  fold (series_max vals). destruct (series_max vals) as [y|].
  - destruct (decide (y ≤ x)); intros [= <-]; [by left|right; by apply IH].
  - intros [= <-]. by left.
Qed.

(** [Series.min()] is the least of the values that are not [NaN]. *)
Lemma series_min_spec (vals : list float) m :
  Some m ∈ vals → (∀ x, Some x ∈ vals → m ≤ x) → series_min vals = Some m.
Proof.
  induction vals as [|v vals IH]; intros Hin Hle; [by apply elem_of_nil in Hin|].
  simpl. fold (series_min vals).
  destruct v as [x|].
  - destruct (series_min vals) as [y|] eqn:Hy.
    + pose proof (series_min_elem _ _ Hy) as Hyin.
      assert (m ≤ y) by (apply Hle; by right).
      assert (m ≤ x) by (apply Hle; by left).
      apply elem_of_cons in Hin as [[= <-]|Hin].
      * by rewrite decide_True.
      * assert (Some y = Some m) as [= ->].
        { apply IH; [done|]. intros; apply Hle; by right. }
        destruct (decide (x ≤ m)); [|done]. f_equal. by apply Qcle_antisym.
    + apply elem_of_cons in Hin as [[= <-]|Hin]; [done|].
      discriminate IH; [done|]. intros; apply Hle; by right.
  - apply elem_of_cons in Hin as [?|Hin]; [done|].
    apply IH; [done|]. intros; apply Hle; by right.
Qed.

(** [Series.max()] is the greatest of the values that are not [NaN]. *)
Lemma series_max_spec (vals : list float) m :
  Some m ∈ vals → (∀ x, Some x ∈ vals → x ≤ m) → series_max vals = Some m.
Proof.
  induction vals as [|v vals IH]; intros Hin Hle; [by apply elem_of_nil in Hin|].
  simpl. fold (series_max vals).
  destruct v as [x|].
  - destruct (series_max vals) as [y|] eqn:Hy.
    + pose proof (series_max_elem _ _ Hy) as Hyin.
      assert (y ≤ m) by (apply Hle; by right).
      assert (x ≤ m) by (apply Hle; by left).
      apply elem_of_cons in Hin as [[= <-]|Hin].
      * by rewrite decide_True.
      * assert (Some y = Some m) as [= ->].
        { apply IH; [done|]. intros; apply Hle; by right. }
        destruct (decide (m ≤ x)); [|done]. f_equal. by apply Qcle_antisym.
    + apply elem_of_cons in Hin as [[= <-]|Hin]; [done|].
      discriminate IH; [done|]. intros; apply Hle; by right.
  - apply elem_of_cons in Hin as [?|Hin]; [done|].
    apply IH; [done|]. intros; apply Hle; by right.
Qed.

Lemma Qc_div_diag (x : Qc) : x ≠ 0 → x / x = 1.
Proof. intros Hx. unfold Qcdiv. by apply Qcmult_inv_r. Qed.

Lemma round_dec_2_one : round_dec 2 1 = 1.
Proof. apply Qc_is_canon. by vm_compute. Qed.

End numeric_facts.

(* ================================================================== *)
(** * Normalisation: the claims on [normalize_indicators] *)
(* ================================================================== *)

Section normalize_claims.
Import Num Pandas module2.
Local Open Scope Qc_scope.

Lemma normalize_indicators_unfold df0 cfg inds :
  df_empty df0 = false → indicators cfg = Some inds →
  normalize_indicators df0 cfg = Ok (foldl normalize_step df0 inds).
Proof. intros He Hi. unfold normalize_indicators. by rewrite He, Hi. Qed.

Lemma cell_at_num c (r : gmap string cell) x :
  as_float (cell_at c r) = Ok (Some x) ↔ r !! c = Some (CNum x).
Proof.
  unfold cell_at. destruct (r !! c) as [[]|]; simpl; split; intros; by simplify_eq.
Qed.

Lemma numeric_column_elem df c vals x :
  numeric_column df c = Ok vals →
  Some x ∈ vals ↔ ∃ r, r ∈ rows df ∧ r !! c = Some (CNum x).
Proof.
  intros Hn. split.
  - intros [i Hi]%list_elem_of_lookup.
    destruct (rows df !! i) as [r|] eqn:Hr.
    + destruct (numeric_column_lookup df c vals i r Hn Hr) as (v & Hv & Hf).
      exists r. split; [by eapply list_elem_of_lookup_2|].
      apply cell_at_num. congruence.
    + apply lookup_ge_None in Hr. apply lookup_lt_Some in Hi.
      rewrite (numeric_column_length _ _ _ Hn) in Hi. lia.
  - intros (r & [i Hr]%list_elem_of_lookup & Hx).
    destruct (numeric_column_lookup df c vals i r Hn Hr) as (v & Hv & Hf).
    apply cell_at_num in Hx. eapply list_elem_of_lookup_2. rewrite Hv. congruence.
Qed.



Lemma py_min_Qc_min a b : py_min (Some a) (Some b) = Some (Qc_min a b).
Proof.
  unfold py_min, Qc_min, float_lt. case_bool_decide as H; destruct (decide (a ≤ b)) as [H'|H'];
    try done.
  - by apply Qclt_not_le in H.
  - by apply Qcnot_le_lt in H'.
Qed.

Lemma py_max_Qc_max a b : py_max (Some a) (Some b) = Some (Qc_max a b).
Proof.
  unfold py_max, Qc_max, float_lt. case_bool_decide as H; destruct (decide (a ≤ b)) as [H'|H'];
    try done.
  - exfalso. apply H'. by apply Qclt_le_weak.
  - f_equal. apply Qcle_antisym; [done|]. by apply Qcnot_lt_le.
Qed.

Lemma EPSILON_pos : 0 < EPSILON.
Proof. by vm_compute. Qed.

Lemma Qc_abs_0 : Qc_abs 0 = 0.
Proof. unfold Qc_abs. by rewrite decide_True. Qed.

Lemma Qc_sub_diag (x : Qc) : x - x = 0.
Proof. apply Qcplus_opp_r. Qed.

Lemma Qc_sub_eq_0 (x y : Qc) : x - y = 0 → x = y.
Proof.
  intros H. rewrite <-(Qcplus_0_l y), <-H. unfold Qcminus.
  by rewrite <-Qcplus_assoc, (Qcplus_comm (- y)), Qcplus_opp_r, Qcplus_0_r.
Qed.

Lemma not_degenerate_ne b w :
  degenerate (Some b) (Some w) = false → b - w ≠ 0 ∧ w - b ≠ 0.
Proof.
  unfold degenerate. simpl. intros Hd%bool_decide_eq_false.
  split; intros H0; apply Hd.
  - rewrite H0, Qc_abs_0. apply EPSILON_pos.
  - apply Qc_sub_eq_0 in H0 as ->. rewrite Qc_sub_diag, Qc_abs_0. apply EPSILON_pos.
Qed.


End normalize_claims.

Section normalize_theorems.
Import Num Pandas module2.
Local Open Scope Qc_scope.

Lemma norm_cell_identical dir thr (vals : list float) q :
  Some q ∈ vals → (∀ x, Some x ∈ vals → x = q) →
  norm_cell dir thr vals (Some q) = CNum 1.
Proof.
  intros Hin Hall.
  assert (series_min vals = Some q) as Hmin.
  { apply series_min_spec; [done|]. by intros x ->%Hall. }
  assert (series_max vals = Some q) as Hmax.
  { apply series_max_spec; [done|]. by intros x ->%Hall. }
  assert (best_value dir vals = Some q) as Hb.
  { unfold best_value. by destruct (decide _). }
  assert (worst_value_raw dir vals = Some q) as Hwr.
  { unfold worst_value_raw. by destruct (decide _). }
  assert (∃ w, worst_value dir thr vals = Some w) as [w Hw].
  { unfold worst_value. rewrite Hwr, py_min_Qc_min, py_max_Qc_max.
    destruct (decide _); by eexists. }
  unfold norm_cell. rewrite Hb, Hw.
  destruct (degenerate (Some q) (Some w)) eqn:Hd; [done|].
  apply not_degenerate_ne in Hd as [Hd1 Hd2].
  unfold normalized_value, float_div, float_sub. simpl.
  repeat destruct (decide _); simpl; by rewrite Qc_div_diag, round_dec_2_one.
Qed.

(** C5.  If every experiment has the same value for an indicator, every
    normalised value of that indicator is exactly 1, whatever the direction
    string and the threshold: both when the anchored bounds collapse and
    when the worst bound is anchored at the threshold and the general
    formula is applied. *)
Theorem identical_values_normalize_to_one
    (df0 : DataFrame) (cfg : IndicatorsConfig) (inds : list Indicator)
    (ind : Indicator) (id dir : string) (thr q : Qc) :
  df_empty df0 = false →
  indicators cfg = Some inds →
  ind ∈ inds →
  indicator_id ind = Some id → threshold ind = Some thr → direction ind = Some dir →
  NoDup (omap indicator_id inds) →
  (∀ id', id' ∈ omap indicator_id inds → id ≠ id' +:+ "_normalized") →
  has_column df0 id = true →
  (∀ r, r ∈ rows df0 → r !! id = Some (CNum q)) →
  ∃ df', normalize_indicators df0 cfg = Ok df'
    ∧ length (rows df') = length (rows df0)
    ∧ ∀ r', r' ∈ rows df' → r' !! (id +:+ "_normalized") = Some (CNum 1).
Proof.
  intros He Hi Hin Hid Hthr Hdir Hnd Hnc Hcol Hall.
  eexists. split; [by apply normalize_indicators_unfold|].
  pose proof (normalize_loop_frame inds df0) as (Hlen & _ & _).
  split; [done|].
  intros r' [i Hr']%list_elem_of_lookup.
  destruct (rows df0 !! i) as [r0|] eqn:Hr0; last first.
  { apply lookup_ge_None in Hr0. apply lookup_lt_Some in Hr'. lia. }
  destruct (float_column_numeric df0 id Hcol) as [vals Hvals].
  { intros r Hr. rewrite (proj2 (cell_at_num id r q) (Hall r Hr)). by eexists. }
  destruct (numeric_column_lookup df0 id vals i r0 Hvals Hr0) as (v & Hv & Hf).
  assert (v = Some q) as ->.
  { rewrite (proj2 (cell_at_num id r0 q)) in Hf; [by injection Hf|].
    apply Hall. by eapply list_elem_of_lookup_2. }
  destruct (norm_after_loop df0 inds ind id thr dir vals i r0 (Some q))
    as (r & Hr & Hn); try done.
  assert (r' = r) as -> by congruence.
  change (id +:+ "_normalized") with (norm_col id). rewrite Hn. f_equal.
  apply norm_cell_identical.
  - by eapply list_elem_of_lookup_2.
  - intros x (r1 & Hr1 & Hx)%(numeric_column_elem df0 id vals x Hvals).
    rewrite (Hall r1 Hr1) in Hx. by injection Hx.
Qed.


End normalize_theorems.

Section normalize_witnesses.
Import Num Pandas module2.
Local Open Scope Qc_scope.

Lemma identical_values_normalize_to_one_witness :
  ∃ df', normalize_indicators df_identical Scenario.sample_indicators_config = Ok df'
    ∧ length (rows df') = 3%nat
    ∧ ∀ r', r' ∈ rows df' → r' !! "IND01_normalized" = Some (CNum 1).
Proof.
  apply (identical_values_normalize_to_one
           df_identical Scenario.sample_indicators_config
           [Scenario.IND01; Scenario.IND02; Scenario.IND03]
           Scenario.IND01 "IND01" "minimize" (Scenario.dec 1000 1) (Scenario.dec 1500 1)).
  - reflexivity.
  - reflexivity.
  - by left.
  - reflexivity.
  - reflexivity.
  - reflexivity.
  - compute_done.
  - intros id' Hin. simpl in Hin. elem_cases Hin; discriminate.
  - reflexivity.
  - intros r Hin. unfold df_identical in Hin. simpl in Hin.
    elem_cases Hin; reflexivity.
Defined.


End normalize_witnesses.

(* ================================================================== *)
(** * Ranking: [Series.rank] and the loop-free steps of [rank_experiments] *)
(* ================================================================== *)

Section rank_facts.
Import Num Pandas module3.
Local Open Scope Qc_scope.

Global Instance score_ge_trans : Transitive score_ge.
Proof. intros x y z Hxy Hyz. unfold score_ge in *. by trans y. Qed.

Global Instance score_ge_total : Total score_ge.
Proof. intros x y. unfold score_ge. destruct (Qc_le_total x y); auto. Qed.

Lemma count_above_perm x l1 l2 : l1 ≡ₚ l2 → count_above x l1 = count_above x l2.
Proof. intros Hp. unfold count_above. by rewrite Hp. Qed.

Lemma Qclt_irrefl' (x : Qc) : ¬ x < x.
Proof. intros H. by apply Qclt_not_eq in H. Qed.

Lemma count_above_none x l : (∀ y, y ∈ l → y ≤ x) → count_above x l = 0%nat.
Proof.
  unfold count_above. induction l as [|y l IH]; intros Hall; [done|].
  rewrite filter_cons, decide_False.
  - apply IH. intros; apply Hall; by right.
  - apply Qcle_not_lt, Hall. by left.
Qed.

Lemma count_above_0_all x l : count_above x l = 0%nat → ∀ y, y ∈ l → y ≤ x.
Proof.
  unfold count_above. induction l as [|z l IH]; intros H0 y Hy; [by apply elem_of_nil in Hy|].
  rewrite filter_cons in H0. destruct (decide (x < z)) as [Hlt|Hnlt]; [done|].
  apply elem_of_cons in Hy as [->|Hy]; [by apply Qcnot_lt_le|by apply IH].
Qed.

(** In a descending list the first position of [x] is the number of
    values strictly above it. *)
Lemma first_index_sorted (l : list Qc) x :
  StronglySorted score_ge l → x ∈ l →
  list_find (λ y, y = x) l = Some (count_above x l, x).
Proof.
  induction 1 as [|y l Hs IH Hall]; intros Hin; [by apply elem_of_nil in Hin|].
  simpl. destruct (decide (y = x)) as [->|Hne].
  - rewrite count_above_none; [done|].
    intros z Hz. apply elem_of_cons in Hz as [->|Hz]; [apply Qcle_refl|].
    rewrite Forall_forall in Hall. by apply Hall.
  - apply elem_of_cons in Hin as [->|Hin]; [done|].
    rewrite IH by done. simpl. unfold count_above. rewrite filter_cons, decide_True; [done|].
    rewrite Forall_forall in Hall. apply Hall in Hin.
    unfold score_ge in Hin. apply Qcle_lt_or_eq in Hin as [?|?]; [done|by subst].
Qed.

(** [rank(ascending=False, method='min')] is one plus the number of
    values strictly above. *)
Lemma rank_of_spec (vals : list float) x :
  Some x ∈ vals →
  rank_of vals (Some x) = Some (S (count_above x (omap id vals))).
Proof.
  intros Hin. unfold rank_of. simpl.
  rewrite (first_index_sorted (merge_sort score_ge (omap id vals)) x).
  - simpl. do 2 f_equal. apply count_above_perm, merge_sort_Permutation.
  - apply StronglySorted_merge_sort; apply _.
  - rewrite merge_sort_Permutation. apply list_elem_of_omap. by exists (Some x).
Qed.

End rank_facts.

Section closed_forms.
Import Num Pandas.

Lemma traverse_fmap_ok {A B} (f : A → res B) (g : A → B) l :
  (∀ x, x ∈ l → f x = Ok (g x)) → traverse f l = Ok (g <$> l).
Proof.
  induction l as [|x l IH]; intros H; simpl; [done|].
  rewrite (H x) by (by left). simpl. rewrite IH; [done|]. intros; apply H; by right.
Qed.

Lemma traverse_fmap {A B C} (f : B → res C) (h : A → B) l :
  traverse f (h <$> l) = traverse (f ∘ h) l.
Proof.
  induction l as [|x l IH]; [done|].
  rewrite fmap_cons. cbn [traverse]. by rewrite IH.
Qed.

Lemma numeric_column_closed df c :
  has_column df c = true →
  (∀ r, r ∈ rows df → ∃ v, as_float (cell_at c r) = Ok v) →
  numeric_column df c = Ok (num_at c <$> rows df).
Proof.
  intros Hc Hfl. unfold numeric_column, get_column. rewrite Hc.
  change (traverse as_float (cell_at c <$> rows df) = Ok (num_at c <$> rows df)).
  rewrite traverse_fmap. apply traverse_fmap_ok. intros r [v Hv]%Hfl.
  simpl. rewrite Hv. f_equal. unfold num_at, cell_at in *.
  destruct (r !! c) as [[]|]; simpl in *; by simplify_eq.
Qed.

Lemma set_column_fmap c (g : gmap string cell → cell) df :
  rows (set_column c (g <$> rows df) df) = (λ r, <[c := g r]> r) <$> rows df.
Proof.
  apply list_eq. intros i. rewrite rows_set_column, !list_lookup_fmap.
  by destruct (rows df !! i).
Qed.

Lemma zip_with_fmap_same {A B C D} (f : B → C → D) (g : A → B) (h : A → C)
    (l : list A) :
  zip_with f (g <$> l) (h <$> l) = (λ x, f (g x) (h x)) <$> l.
Proof. induction l as [|x l IH]; csimpl; [done|by rewrite IH]. Qed.

Lemma omap_id_fmap {A B} (f : A → option B) (l : list A) :
  omap id (f <$> l) = omap f l.
Proof.
  induction l as [|x l IH]; csimpl; [done|].
  destruct (f x); csimpl; by rewrite IH.
Qed.

End closed_forms.

Section rank_rows.
Import Num Pandas module3.
Local Open Scope Qc_scope.

Lemma scored_numeric df :
  scored df →
  numeric_column df TOTAL_SCORE_COLUMN = Ok (num_at TOTAL_SCORE_COLUMN <$> rows df).
Proof.
  intros [Hc Hq]. apply numeric_column_closed; [done|].
  intros r [q Hr]%Hq. unfold cell_at, TOTAL_SCORE_COLUMN. rewrite Hr. by eexists.
Qed.

Lemma rank_all_rows df :
  scored df →
  rows (rank_all df) = (λ r, <[RANK_ALL_COLUMN := rank_all_cell (rows df) r]> r) <$> rows df.
Proof.
  intros Hs. unfold rank_all. rewrite (scored_numeric df Hs), bind_Ok.
  set (scores := num_at TOTAL_SCORE_COLUMN <$> rows df).
  assert (astype_int (rank_min_desc scores)
          = Ok (default 0%nat <$> rank_min_desc scores)) as ->.
  { apply traverse_fmap_ok. intros k (v & -> & Hv)%list_elem_of_fmap.
    pose proof Hv as (r & -> & Hr)%list_elem_of_fmap.
    destruct Hs as [_ Hq]. destruct (Hq r Hr) as [q Hrq].
    assert (num_at TOTAL_SCORE_COLUMN r = Some q) as Hn.
    { unfold num_at, TOTAL_SCORE_COLUMN. by rewrite Hrq. }
    rewrite Hn in *. by rewrite rank_of_spec. }
  rewrite bind_Ok. unfold rank_min_desc, scores. rewrite <-!list_fmap_compose.
  rewrite set_column_fmap. apply list_fmap_ext. intros i r Hr. f_equal.
  simpl. unfold rank_all_cell.
  destruct Hs as [_ Hq]. destruct (Hq r) as [q Hrq]; [by eapply list_elem_of_lookup_2|].
  assert (num_at TOTAL_SCORE_COLUMN r = Some q) as Hn.
  { unfold num_at, TOTAL_SCORE_COLUMN. by rewrite Hrq. }
  change "total_weighted_score" with TOTAL_SCORE_COLUMN. rewrite Hn.
  rewrite rank_of_spec.
  - simpl. unfold scores_of. by rewrite omap_id_fmap.
  - apply list_elem_of_fmap. exists r. split; [done|by eapply list_elem_of_lookup_2].
Qed.

Lemma masked_closed (rs : list (gmap string cell)) :
  masked ((λ r, bool_decide (feasible_row r)) <$> rs)
         (num_at TOTAL_SCORE_COLUMN <$> rs)
  = num_at TOTAL_SCORE_COLUMN <$> filter feasible_row rs.
Proof.
  unfold masked. induction rs as [|r rs IH]; [done|].
  rewrite !fmap_cons, filter_cons. csimpl.
  destruct (decide (feasible_row r)) as [Hf|Hf].
  - rewrite bool_decide_eq_true_2 by done. csimpl. by rewrite IH.
  - rewrite bool_decide_eq_false_2 by done. csimpl. by rewrite IH.
Qed.

Lemma flagged_mask df :
  flagged df →
  get_column df FEASIBILITY_COLUMN ≫= traverse as_bool
  = Ok ((λ r, bool_decide (feasible_row r)) <$> rows df).
Proof.
  intros [Hc Hb]. unfold get_column, FEASIBILITY_COLUMN. rewrite Hc.
  change (traverse as_bool (cell_at "is_feasible" <$> rows df)
          = Ok ((λ r, bool_decide (feasible_row r)) <$> rows df)).
  rewrite traverse_fmap. apply traverse_fmap_ok. intros r [b Hr]%Hb.
  simpl. unfold cell_at. rewrite Hr. simpl. f_equal. destruct b.
  - by rewrite bool_decide_eq_true_2.
  - rewrite bool_decide_eq_false_2; [done|]. unfold feasible_row. by rewrite Hr.
Qed.

End rank_rows.

Section rank_theorems.
Import Num Pandas module3.
Local Open Scope Qc_scope.

Lemma rank_all_frame df : same_outside (λ c, c = RANK_ALL_COLUMN) df (rank_all df).
Proof.
  unfold rank_all. destruct (numeric_column df TOTAL_SCORE_COLUMN) as [scores|]; simpl.
  - destruct (astype_int (rank_min_desc scores)); simpl.
    + apply set_column_same_outside.
    + apply set_column_const_same_outside.
  - apply set_column_const_same_outside.
Qed.

Lemma rank_feasible_rows df :
  scored df → flagged df →
  rows (rank_feasible df)
  = (λ r, <[RANK_FEASIBLE_COLUMN := rank_cell (rows df) r]> r) <$> rows df.
Proof.
  intros Hs Hf. unfold rank_feasible. rewrite (flagged_mask df Hf).
  set (df1 := set_column_const RANK_FEASIBLE_COLUMN CNaN df).
  assert (numeric_column df1 TOTAL_SCORE_COLUMN
          = Ok (num_at TOTAL_SCORE_COLUMN <$> rows df)) as ->.
  { rewrite <-(scored_numeric df Hs).
    eapply same_outside_numeric_column; [apply set_column_const_same_outside|done]. }
  destruct Hs as [_ Hq]. destruct Hf as [_ Hb].
  case_bool_decide as Hex.
  - rewrite zip_with_fmap_same, masked_closed.
    apply list_eq. intros i.
    rewrite rows_set_column, !list_lookup_fmap. unfold df1.
    rewrite rows_set_column_const.
    destruct (rows df !! i) as [r|] eqn:Hr; [|done]. simpl.
    rewrite insert_insert_eq. do 2 f_equal.
    assert (r ∈ rows df) as Hin by (by eapply list_elem_of_lookup_2).
    destruct (Hq r Hin) as [q Hrq]. destruct (Hb r Hin) as [b Hrb].
    assert (num_at TOTAL_SCORE_COLUMN r = Some q) as Hn.
    { unfold num_at, TOTAL_SCORE_COLUMN. by rewrite Hrq. }
    unfold rank_cell. change "total_weighted_score" with TOTAL_SCORE_COLUMN.
    rewrite Hn, Hrb. destruct b.
    + rewrite bool_decide_eq_true_2 by done.
      rewrite rank_of_spec.
      * simpl. unfold scores_of. by rewrite omap_id_fmap.
      * apply list_elem_of_fmap. exists r. split; [done|]. by apply list_elem_of_filter.
    + rewrite bool_decide_eq_false_2; [done|]. unfold feasible_row. by rewrite Hrb.
  - unfold df1. simpl. apply list_fmap_ext. intros i r Hr. f_equal.
    unfold rank_cell.
    assert (r ∈ rows df) as Hin by (by eapply list_elem_of_lookup_2).
    destruct (Hb r Hin) as [b Hrb]. rewrite Hrb. destruct b; [|done].
    exfalso. apply Hex. apply Exists_exists. exists true. split; [|done].
    apply list_elem_of_fmap. exists r. split; [|done].
    by rewrite bool_decide_eq_true_2.
Qed.

Lemma scores_of_feasible_insert (g : gmap string cell → cell) rs :
  scores_of (filter feasible_row ((λ r, <[RANK_ALL_COLUMN := g r]> r) <$> rs))
  = scores_of (filter feasible_row rs).
Proof.
  unfold scores_of. induction rs as [|r rs IH]; [done|].
  rewrite fmap_cons, !filter_cons.
  assert (feasible_row (<[RANK_ALL_COLUMN := g r]> r) ↔ feasible_row r) as Hiff.
  { unfold feasible_row. by rewrite lookup_insert_ne. }
  destruct (decide (feasible_row r)) as [Hf|Hf].
  - rewrite decide_True by (by apply Hiff). csimpl. rewrite IH.
    unfold num_at at 1. by rewrite lookup_insert_ne.
  - rewrite decide_False by (by rewrite Hiff). done.
Qed.

Lemma nat_cell_inj n m : nat_cell n = nat_cell m → n = m.
Proof.
  unfold nat_cell. intros [= H]. lia.
Qed.

(** C6.  After ranking, [rank_all] of an experiment is one plus the
    number of experiments with a strictly higher [total_weighted_score], so
    that tied experiments share a rank; [rank] is null for an infeasible
    experiment and, for a feasible one, is one plus the number of feasible
    experiments with a strictly higher score; a feasible experiment has
    [rank] 1 exactly when no feasible experiment has a higher score. *)
Theorem ranks_count_strictly_higher (df : DataFrame) :
  df_empty df = false → scored df → flagged df →
  length (rows (rank_experiments df)) = length (rows df)
  ∧ ∀ i r0 q b,
      rows df !! i = Some r0 →
      r0 !! "total_weighted_score" = Some (CNum q) →
      r0 !! "is_feasible" = Some (CBool b) →
      ∃ r', rows (rank_experiments df) !! i = Some r'
        ∧ r' !! "total_weighted_score" = Some (CNum q)
        ∧ r' !! "is_feasible" = Some (CBool b)
        ∧ r' !! "rank_all" = Some (nat_cell (1 + count_above q (scores_of (rows df))))
        ∧ (b = false → r' !! "rank" = Some CNaN)
        ∧ (b = true →
             r' !! "rank"
             = Some (nat_cell (1 + count_above q (scores_of (filter feasible_row (rows df)))))
             ∧ (r' !! "rank" = Some (nat_cell 1)
                ↔ ∀ q', q' ∈ scores_of (filter feasible_row (rows df)) → q' ≤ q)).
Proof.
  intros He Hs Hf.
  assert (rank_experiments df = rank_feasible (rank_all df)) as ->.
  { unfold rank_experiments. rewrite He.
    destruct Hs as [Hs _]. destruct Hf as [Hf _].
    unfold TOTAL_SCORE_COLUMN, FEASIBILITY_COLUMN. by rewrite Hs, Hf. }
  pose proof (rank_all_rows df Hs) as Hrows1.
  pose proof (rank_all_frame df) as (Hlen1 & Hcol1 & _).
  assert (scored (rank_all df)) as Hs1.
  { destruct Hs as [Hc Hq]. split; [by rewrite Hcol1|].
    intros r1. rewrite Hrows1. intros (r & -> & Hr)%list_elem_of_fmap.
    rewrite lookup_insert_ne by done. by apply Hq. }
  assert (flagged (rank_all df)) as Hf1.
  { destruct Hf as [Hc Hb]. split; [by rewrite Hcol1|].
    intros r1. rewrite Hrows1. intros (r & -> & Hr)%list_elem_of_fmap.
    rewrite lookup_insert_ne by done. by apply Hb. }
  pose proof (rank_feasible_rows (rank_all df) Hs1 Hf1) as Hrows2.
  split.
  { by rewrite Hrows2, length_fmap. }
  intros i r0 q b Hr0 Hq Hb.
  rewrite Hrows2, Hrows1. rewrite !list_lookup_fmap, Hr0. simpl.
  eexists. split; [done|].
  assert (num_at "total_weighted_score" r0 = Some q) as Hn.
  { unfold num_at. by rewrite Hq. }
  assert (rank_cell ((λ r, <[RANK_ALL_COLUMN := rank_all_cell (rows df) r]> r) <$> rows df)
                    (<[RANK_ALL_COLUMN := rank_all_cell (rows df) r0]> r0)
          = if b then nat_cell (S (count_above q (scores_of (filter feasible_row (rows df)))))
            else CNaN) as Hrank.
  { unfold rank_cell, num_at. rewrite !lookup_insert_ne by done. rewrite Hb, Hq.
    destruct b; [|done]. by rewrite scores_of_feasible_insert. }
  rewrite Hrank.
  split_and!.
  - by rewrite !lookup_insert_ne.
  - by rewrite !lookup_insert_ne.
  - rewrite lookup_insert_ne by done. rewrite lookup_insert_eq.
    unfold rank_all_cell. by rewrite Hn.
  - intros ->. by rewrite lookup_insert_eq.
  - intros ->. rewrite lookup_insert_eq. split; [done|]. split.
    + intros H. apply (inj Some), nat_cell_inj in H. apply count_above_0_all. lia.
    + intros Hall. by rewrite count_above_none.
Qed.

End rank_theorems.

(* ================================================================== *)
(** * Scores: the steps of [calculate_total_score] *)
(* ================================================================== *)

Section score_facts.
Import Num Pandas module3.
Local Open Scope Qc_scope.

Lemma weighted_col_last id : last_char (weighted_col id) = last_char "d".
Proof. unfold weighted_col. by rewrite last_char_append. Qed.

Lemma weighted_col_not_score id :
  weighted_col id ≠ ECONOMIC_SCORE_COLUMN
  ∧ weighted_col id ≠ ENVIRONMENTAL_SCORE_COLUMN
  ∧ weighted_col id ≠ TOTAL_SCORE_COLUMN.
Proof.
  split_and!; intros H; apply (f_equal last_char) in H;
    rewrite weighted_col_last in H; discriminate.
Qed.

Lemma round_dec_0 p : round_dec p 0 = 0.
Proof.
  unfold round_dec. destruct (0 <=? p)%Z.
  - rewrite Qcmult_0_l. change (rint 0) with 0%Z. rewrite Qc_of_Z_0.
    unfold Qcdiv. apply Qcmult_0_l.
  - unfold Qcdiv at 1. rewrite Qcmult_0_l. change (rint 0) with 0%Z.
    rewrite Qc_of_Z_0. apply Qcmult_0_l.
Qed.

Lemma series_sum_fmap {A} (f : A → option Qc) (l : list A) :
  series_sum (f <$> l) = Qc_sum ((λ x, default 0 (f x)) <$> l).
Proof.
  induction l as [|x l IH]; [done|].
  rewrite !fmap_cons. simpl. fold (series_sum (f <$> l)). rewrite IH.
  destruct (f x); simpl; [done|]. by rewrite Qcplus_0_l.
Qed.

Lemma filter_ext_elem {A} (P Q : A → Prop) `{∀ x, Decision (P x)} `{∀ x, Decision (Q x)}
    (l : list A) :
  (∀ x, x ∈ l → P x ↔ Q x) → filter P l = filter Q l.
Proof.
  induction l as [|x l IH]; intros Hext; [done|].
  rewrite !filter_cons. rewrite IH by (intros; apply Hext; by right).
  destruct (decide (P x)) as [HP|HP].
  - rewrite decide_True; [done|]. apply Hext; [by left|done].
  - rewrite decide_False; [done|]. intros HQ. apply HP. apply Hext; [by left|done].
Qed.

(** With every indicator carrying an id, the loop over the weighted
    columns yields those that exist. *)
Lemma weighted_cols_closed df inds :
  (∀ ind, ind ∈ inds → is_Some (indicator_id ind)) →
  weighted_cols df inds = Ok (available_weighted df inds).
Proof.
  intros Hids. unfold weighted_cols, available_weighted.
  assert (traverse (λ ind, id ← key (indicator_id ind); Ok (id +:+ WEIGHTED_SUFFIX)) inds
          = Ok (weighted_col <$> omap indicator_id inds)) as ->; [|done].
  induction inds as [|ind inds IH]; [done|].
  destruct (Hids ind) as [id Hid]; [by left|].
  cbn [traverse]. rewrite Hid. simpl. rewrite IH by (intros; apply Hids; by right).
  simpl. by rewrite Hid.
Qed.

(** Writing a score column leaves every other column alone. *)
Lemma score_column_frame col p cols df df' :
  score_column col p cols df = Ok df' → same_outside (λ c, c = col) df df'.
Proof.
  unfold score_column. destruct cols.
  - intros [= <-]. apply set_column_const_same_outside.
  - destruct (sum_axis1 df _); simpl; [|done].
    intros [= <-]. apply set_column_same_outside.
Qed.

Lemma zero_category_scores_frame df :
  same_outside (λ c, c = ECONOMIC_SCORE_COLUMN ∨ c = ENVIRONMENTAL_SCORE_COLUMN)
               df (zero_category_scores df).
Proof.
  unfold zero_category_scores. eapply same_outside_trans.
  - eapply same_outside_weaken; [|apply set_column_const_same_outside]. by left.
  - eapply same_outside_weaken; [|apply set_column_const_same_outside]. by right.
Qed.

(** The category scores touch only their own two columns. *)
Lemma category_scores_frame df inds p :
  same_outside (λ c, c = ECONOMIC_SCORE_COLUMN ∨ c = ENVIRONMENTAL_SCORE_COLUMN)
               df (category_scores df inds p).
Proof.
  unfold category_scores.
  destruct (weighted_cols df _ ≫= _) as [df1|] eqn:H1;
    [|apply zero_category_scores_frame].
  assert (same_outside (λ c, c = ECONOMIC_SCORE_COLUMN) df df1) as Hf1.
  { destruct (weighted_cols df _) as [cols|]; simpl in H1; [|done].
    by eapply score_column_frame. }
  destruct (weighted_cols df1 _ ≫= _) as [df2|] eqn:H2.
  - eapply same_outside_trans.
    + eapply same_outside_weaken; [|apply Hf1]. by left.
    + destruct (weighted_cols df1 _) as [cols|]; simpl in H2; [|done].
      eapply same_outside_weaken; [|by eapply score_column_frame]. by right.
  - eapply same_outside_trans.
    + eapply same_outside_weaken; [|apply Hf1]. by left.
    + apply zero_category_scores_frame.
Qed.

End score_facts.

Section score_theorems.
Import Num Pandas module3.
Local Open Scope Qc_scope.

Lemma row_sum_closed cols (r : gmap string cell) :
  (∀ c, c ∈ cols → ∃ v, as_float (cell_at c r) = Ok v) →
  row_sum cols r = Ok (Qc_sum (weighted_value r <$> cols)).
Proof.
  intros Hnum. unfold row_sum.
  rewrite (traverse_fmap_ok _ (λ c, num_at c r)).
  - rewrite bind_Ok. by rewrite series_sum_fmap.
  - intros c [v Hv]%Hnum. rewrite Hv. f_equal. unfold num_at, cell_at in *.
    destruct (r !! c) as [[]|]; simpl in *; by simplify_eq.
Qed.

Lemma total_score_rows df inds p :
  (∀ ind, ind ∈ inds → is_Some (indicator_id ind)) →
  (∀ r c, r ∈ rows df → c ∈ available_weighted df inds →
     ∃ v, as_float (cell_at c r) = Ok v) →
  rows (total_score df inds p)
  = (λ r, <[TOTAL_SCORE_COLUMN :=
             CNum (round_dec p (Qc_sum (weighted_value r <$> available_weighted df inds)))]> r)
      <$> rows df.
Proof.
  intros Hids Hnum. unfold total_score.
  rewrite (weighted_cols_closed df inds Hids), bind_Ok.
  unfold score_column. destruct (available_weighted df inds) as [|c cols] eqn:Hcols.
  - simpl. apply list_fmap_ext. intros i r _. by rewrite round_dec_0.
  - unfold sum_axis1.
    rewrite (traverse_fmap_ok _ (λ r, Qc_sum (weighted_value r <$> c :: cols))).
    + rewrite bind_Ok, <-list_fmap_compose. by rewrite set_column_fmap.
    + intros r Hr. apply row_sum_closed. intros c' Hc'. by apply Hnum.
Qed.

Lemma available_weighted_frame (P : string → Prop) df df' inds :
  same_outside P df df' →
  (∀ id, ¬ P (weighted_col id)) →
  available_weighted df' inds = available_weighted df inds.
Proof.
  intros (_ & Hc & _) HP. unfold available_weighted.
  apply filter_ext_elem. intros c (id & -> & _)%list_elem_of_fmap.
  by rewrite Hc.
Qed.

Lemma not_category_score id :
  ¬ (weighted_col id = ECONOMIC_SCORE_COLUMN ∨ weighted_col id = ENVIRONMENTAL_SCORE_COLUMN).
Proof. destruct (weighted_col_not_score id) as (? & ? & ?). tauto. Qed.

(** C8.  For every experiment row, [total_weighted_score] is the sum of
    the weighted columns that exist for the configured indicators, rounded
    to [score_precision]: it is computed from those columns of the frame
    passed in, whatever the categories of the indicators and whatever the
    two category scores are.  Every indicator carries an id and the
    weighted columns are float columns. *)
Theorem total_score_is_direct_sum
    (df0 : DataFrame) (cfg : IndicatorsConfig) (inds : list Indicator) (p : Z) :
  df_empty df0 = false →
  indicators cfg = Some inds →
  (∀ ind, ind ∈ inds → is_Some (indicator_id ind)) →
  (∀ r c, r ∈ rows df0 → c ∈ available_weighted df0 inds →
     ∃ v, as_float (cell_at c r) = Ok v) →
  ∃ df', calculate_total_score df0 cfg p = Ok df'
    ∧ length (rows df') = length (rows df0)
    ∧ ∀ i r0, rows df0 !! i = Some r0 →
        ∃ r', rows df' !! i = Some r'
          ∧ r' !! "total_weighted_score"
            = Some (CNum (round_dec p
                (Qc_sum (weighted_value r0 <$> available_weighted df0 inds)))).
Proof.
  intros He Hi Hids Hnum.
  unfold calculate_total_score. rewrite He, Hi. eexists. split; [done|].
  set (df1 := category_scores df0 inds p).
  pose proof (category_scores_frame df0 inds p) as Hf. fold df1 in Hf.
  pose proof (available_weighted_frame _ df0 df1 inds Hf not_category_score) as Hav.
  destruct Hf as (Hlen & Hcol & Hrow).
  assert (∀ i r0 r1 c, rows df0 !! i = Some r0 → rows df1 !! i = Some r1 →
            c ∈ available_weighted df0 inds → r1 !! c = r0 !! c) as Hsame.
  { intros i r0 r1 c Hr0 Hr1 (_ & (id & -> & _)%list_elem_of_fmap)%list_elem_of_filter.
    apply (Hrow i r0 r1); [apply not_category_score|done..]. }
  rewrite total_score_rows; [|done|]; last first.
  { intros r1 c [i Hr1]%list_elem_of_lookup Hc. rewrite Hav in Hc.
    destruct (rows df0 !! i) as [r0|] eqn:Hr0.
    - unfold cell_at. rewrite (Hsame i r0 r1 c Hr0 Hr1 Hc).
      apply Hnum; [by eapply list_elem_of_lookup_2|done].
    - apply lookup_ge_None in Hr0. apply lookup_lt_Some in Hr1. lia. }
  split; [by rewrite length_fmap|].
  intros i r0 Hr0.
  destruct (rows df1 !! i) as [r1|] eqn:Hr1; last first.
  { apply lookup_ge_None in Hr1. apply lookup_lt_Some in Hr0. lia. }
  rewrite list_lookup_fmap, Hr1. simpl. eexists. split; [done|].
  rewrite lookup_insert_eq. do 4 f_equal. rewrite Hav.
  apply list_fmap_ext. intros j c Hc. unfold weighted_value, num_at.
  rewrite (Hsame i r0 r1 c Hr0 Hr1); [done|]. by eapply list_elem_of_lookup_2.
Qed.

End score_theorems.

Section module3_witnesses.
Import Num Pandas module3.
Local Open Scope Qc_scope.

Lemma total_score_is_direct_sum_witness :
  ∃ df', calculate_total_score df_weighted (mkConfig (Some partial_categories)) 2 = Ok df'
    ∧ length (rows df') = 3%nat
    ∧ ∃ r', rows df' !! 0%nat = Some r'
        ∧ r' !! "total_weighted_score"
          = Some (CNum (round_dec 2
              (Qc_sum (weighted_value
                         (weighted_row "exp001" (Scenario.dec 30 100) (Scenario.dec 14 100)
                                       (Scenario.dec 34 100))
                       <$> available_weighted df_weighted partial_categories)))).
Proof.
  destruct (total_score_is_direct_sum df_weighted (mkConfig (Some partial_categories))
              partial_categories 2) as (df' & Hdf & Hlen & Hrows).
  - reflexivity.
  - reflexivity.
  - intros ind Hin. unfold partial_categories in Hin. elem_cases Hin; by eexists.
  - assert (available_weighted df_weighted partial_categories
            = ["IND01_weighted"; "IND02_weighted"; "IND03_weighted"]) as ->
      by (vm_compute; reflexivity).
    intros r c Hr Hc. unfold df_weighted in Hr. simpl in Hr.
    elem_cases Hr; elem_cases Hc; by eexists.
  - exists df'. split_and!; [done..|]. by apply Hrows.
Defined.

Lemma ranks_count_strictly_higher_witness :
  length (rows (rank_experiments df_scored)) = 3%nat
  ∧ ∃ r', rows (rank_experiments df_scored) !! 0%nat = Some r'
      ∧ r' !! "rank_all"
        = Some (nat_cell (1 + count_above (Scenario.dec 78 100) (scores_of (rows df_scored))))
      ∧ r' !! "rank"
        = Some (nat_cell (1 + count_above (Scenario.dec 78 100)
                                (scores_of (filter feasible_row (rows df_scored))))).
Proof.
  destruct (ranks_count_strictly_higher df_scored) as [Hlen Hrows].
  - reflexivity.
  - split; [reflexivity|]. intros r Hr. unfold df_scored in Hr. simpl in Hr.
    elem_cases Hr; by eexists.
  - split; [reflexivity|]. intros r Hr. unfold df_scored in Hr. simpl in Hr.
    elem_cases Hr; by eexists.
  - split; [done|].
    destruct (Hrows 0%nat (scored_row "exp001" (Scenario.dec 78 100) true)
                (Scenario.dec 78 100) true) as (r' & Hr' & _ & _ & Hall & _ & Hfeas);
      [reflexivity..|].
    destruct (Hfeas eq_refl) as [Hrank _].
    exists r'. by split_and!.
Defined.

End module3_witnesses.

(* ================================================================== *)
(** * Aggregation: the loop of [aggregate_to_experiment_level] *)
(* ================================================================== *)

Section aggregate_facts.
Import Num Pandas module2.

Lemma traverse_elem {A B} (f : A → res B) l ys y :
  traverse f l = Ok ys → y ∈ ys → ∃ x, x ∈ l ∧ f x = Ok y.
Proof.
  revert ys. induction l as [|x l IH]; intros ys; simpl.
  - intros [= <-] Hy. by apply elem_of_nil in Hy.
  - destruct (f x) as [y'|] eqn:Hf; simpl; [|done].
    destruct (traverse f l) as [ys'|]; simpl; [|done].
    intros [= <-] [->|Hy]%elem_of_cons.
    + exists x. split; [by left|done].
    + destruct (IH ys' eq_refl Hy) as (x' & Hx' & Hfx'). exists x'. split; [by right|done].
Qed.

(** Every entry of the aggregated series comes from a row of the target
    table with that experiment id. *)
Lemma aggregate_series_keys agg t id aggregated k v :
  aggregate_series agg t id = Ok aggregated → (k, v) ∈ aggregated → has_exp_key t k.
Proof.
  assert (∀ f, groupby_reduce f t id = Ok aggregated → (k, v) ∈ aggregated →
               has_exp_key t k) as Hgroup.
  { intros f. unfold groupby_reduce, get_column.
    destruct (has_column t EXP_ID_COLUMN); [|done]. rewrite bind_Ok.
    intros Ht Hin. destruct (traverse_elem _ _ _ _ Ht Hin) as (k' & Hk' & Hf).
    destruct (traverse _ (filter _ (rows t))); simpl in Hf; [|done].
    injection Hf as -> _.
    apply elem_of_remove_dups, list_elem_of_filter in Hk' as [_ Hk'].
    apply list_elem_of_fmap in Hk' as (r & -> & Hr). by exists r. }
  unfold aggregate_series. repeat case_decide; eauto.
  unfold set_index_series, get_column.
  destruct (has_column t EXP_ID_COLUMN); [|done]. rewrite bind_Ok.
  intros [= <-] (r & [= -> ->] & Hr)%list_elem_of_fmap. by exists r.
Qed.

Lemma filled_matches_nonempty r aggregated : filled_matches r aggregated ≠ [].
Proof. unfold filled_matches, matched_values. by destruct (matches _ _). Qed.

Lemma filled_matches_absent t agg id aggregated r v :
  aggregate_series agg t id = Ok aggregated →
  ¬ has_exp_key t (cell_at EXP_ID_COLUMN r) →
  v ∈ filled_matches r aggregated → v = CNum 0%Qc.
Proof.
  intros Hagg Hno. unfold filled_matches, matched_values.
  destruct (matches _ _) as [|v' vs] eqn:Hm; [by intros ->%list_elem_of_singleton|].
  intros _. exfalso. apply Hno.
  assert (v' ∈ matches (cell_at EXP_ID_COLUMN r) aggregated) as Hv' by (rewrite Hm; by left).
  unfold matches in Hv'.
  apply list_elem_of_fmap in Hv' as ([k w] & -> & [Hk Hkw]%list_elem_of_filter).
  simpl in Hk. subst k. by eapply aggregate_series_keys.
Qed.

(** A successful merge without a column clash, followed by [fillna]. *)
Lemma merge_fillna df id aggregated :
  has_column df EXP_ID_COLUMN = true → has_column df id = false →
  ∃ merged, merge_left df id aggregated = Ok merged
    ∧ has_column merged id = true
    ∧ columns (fillna0 id merged) = columns df ++ [id]
    ∧ rows (fillna0 id merged)
      = rows df ≫= (λ r, (λ v, <[id := v]> r) <$> filled_matches r aggregated).
Proof.
  intros He Hid. unfold merge_left. rewrite He, Hid. simpl. eexists. split; [done|].
  split_and!.
  - unfold has_column. simpl. apply bool_decide_eq_true, elem_of_app. right. by left.
  - done.
  - unfold fillna0. cbn [rows]. induction (rows df) as [|r rs IH]; [done|].
    rewrite !bind_cons, fmap_app, IH. f_equal.
    unfold filled_matches. rewrite <-!list_fmap_compose.
    apply list_fmap_ext. intros i w _.
    cbn [compose]. unfold cell_at. rewrite lookup_insert_eq. cbn [default from_option Datatypes.id].
    destruct w; try done. by rewrite insert_insert_eq.
Qed.

End aggregate_facts.

Section aggregate_loop.
Import Num Pandas module2.

Lemma elem_of_snoc {A} (l : list A) x y : x ∈ l ++ [y] ↔ x ∈ l ∨ x = y.
Proof. by rewrite elem_of_app, list_elem_of_singleton. Qed.

(** One iteration on an indicator whose column does not exist yet: the
    indicator is recorded as missing, or its column is merged in. *)
Lemma aggregate_step_spec data df missing ind id :
  indicator_id ind = Some id →
  has_column df EXP_ID_COLUMN = true → has_column df id = false →
  aggregate_step data (df, missing) ind = (df, missing ++ [id])
  ∨ ∃ target t agg aggregated df',
      target_dataframe ind = Some target ∧ data !! target = Some (DFrame t)
      ∧ aggregation ind = Some agg ∧ aggregate_series agg t id = Ok aggregated
      ∧ aggregate_step data (df, missing) ind = (df', missing)
      ∧ columns df' = columns df ++ [id]
      ∧ rows df' = rows df ≫= (λ r, (λ v, <[id := v]> r) <$> filled_matches r aggregated).
Proof.
  intros Hid He Hc. unfold aggregate_step. rewrite Hid. simpl.
  destruct (target_dataframe ind) as [target|]; simpl; [|by left].
  destruct (aggregation ind) as [agg|]; simpl; [|by left].
  destruct (data !! target) as [[t| |]|] eqn:Ht; try by left.
  destruct (has_column t id); simpl; [|by left].
  destruct (aggregate_series agg t id) as [aggregated|] eqn:Hagg; [|by left].
  destruct (merge_fillna df id aggregated He Hc) as (merged & -> & -> & Hcols & Hrows).
  right. exists target, t, agg, aggregated, (fillna0 id merged). by split_and!.
Qed.

Section invariant.
Context (data : gmap string DataValue) (df0 : DataFrame).

Lemma agg_inv_init : has_column df0 EXP_ID_COLUMN = true → agg_inv data df0 [] (df0, []).
Proof.
  intros He. split_and!; simpl.
  - done.
  - intros c Hc. by left.
  - intros id Hid. by apply elem_of_nil in Hid.
  - intros r0 Hr0. by exists r0.
  - intros ind id target t r Hin. by apply elem_of_nil in Hin.
Qed.

Lemma agg_inv_step seen st ind id :
  indicator_id ind = Some id →
  id ∉ omap indicator_id seen →
  has_column df0 id = false →
  agg_inv data df0 seen st → agg_inv data df0 (seen ++ [ind]) (aggregate_step data st ind).
Proof.
  intros Hid Hfresh Hnew (He & Hcols & Hdone & Hkeep & Hzero).
  destruct st as [df missing]. simpl in He, Hcols, Hdone, Hkeep, Hzero.
  assert (has_column df id = false) as Hc.
  { destruct (has_column df id) eqn:E; [|done]. destruct (Hcols id E); congruence. }
  assert (omap indicator_id (seen ++ [ind]) = omap indicator_id seen ++ [id]) as Hseen.
  { rewrite omap_app. simpl. by rewrite Hid. }
  assert (id ≠ EXP_ID_COLUMN) as Hne by (intros ->; congruence).
  unfold agg_inv.
  destruct (aggregate_step_spec data df missing ind id Hid He Hc)
    as [->|(target & t & agg & aggregated & df' & Htarget & Ht & Hagg & Hser & ->
            & Hcols' & Hrows')];
    rewrite Hseen; simpl.
  - split_and!; try done.
    + intros c [?|?]%Hcols; [by left|right]. apply elem_of_app. by left.
    + intros id' [Hin| ->]%elem_of_snoc.
      * destruct (Hdone id' Hin); [left|by right]. apply elem_of_app. by left.
      * left. apply elem_of_app. right. by left.
    + intros ind' id' target t r [Hin| ->]%elem_of_snoc;
        [by apply Hzero|]. intros Hid' _ _ Hc'.
      assert (id' = id) as -> by congruence. congruence.
  - assert (∀ c, has_column df' c = true ↔ has_column df c = true ∨ c = id) as Hcol.
    { intros c. unfold has_column. rewrite Hcols', !bool_decide_eq_true, elem_of_app.
      by rewrite list_elem_of_singleton. }
    assert (∀ r', r' ∈ rows df' ↔
              ∃ r v, r ∈ rows df ∧ v ∈ filled_matches r aggregated ∧ r' = <[id := v]> r)
      as Hrow.
    { intros r'. rewrite Hrows', list_elem_of_bind. split.
      - intros (r & (v & -> & Hv)%list_elem_of_fmap & Hr). by exists r, v.
      - intros (r & v & Hr & Hv & ->). exists r. split; [|done].
        apply list_elem_of_fmap. by exists v. }
    split_and!.
    + apply Hcol. by left.
    + intros c [[?|?]%Hcols| ->]%Hcol.
      * by left.
      * right. apply elem_of_app. by left.
      * right. apply elem_of_app. right. by left.
    + intros id' [Hin| ->]%elem_of_snoc.
      * destruct (Hdone id' Hin); [by left|right]. apply Hcol. by left.
      * right. apply Hcol. by right.
    + intros r0 Hr0. destruct (Hkeep r0 Hr0) as (r & Hr & Heq).
      destruct (filled_matches r aggregated) as [|v vs] eqn:Hf;
        [by apply filled_matches_nonempty in Hf|].
      exists (<[id := v]> r). split.
      * apply Hrow. exists r, v. split_and!; [done| |done]. rewrite Hf. by left.
      * by rewrite lookup_insert_ne.
    + intros ind' id' target' t' r' Hin Hid' Htarget' Ht' Hc' (r & v & Hr & Hv & ->)%Hrow Hno.
      assert (cell_at EXP_ID_COLUMN (<[id := v]> r) = cell_at EXP_ID_COLUMN r) as Hkey.
      { unfold cell_at. by rewrite lookup_insert_ne. }
      rewrite Hkey in Hno.
      apply elem_of_snoc in Hin as [Hin| ->].
      * assert (id' ≠ id) as Hne'.
        { intros ->. apply Hfresh. by eapply elem_of_ids. }
        rewrite lookup_insert_ne by done.
        apply (Hzero ind' id' target' t'); try done.
        apply Hcol in Hc' as [?|?]; done.
      * assert (id' = id) as -> by congruence.
        assert (target' = target) as -> by congruence.
        assert (t' = t) as -> by congruence.
        rewrite lookup_insert_eq. f_equal.
        by eapply filled_matches_absent.
Qed.

Lemma agg_inv_loop rest : ∀ seen st,
  (∀ ind, ind ∈ rest → is_Some (indicator_id ind)) →
  NoDup (omap indicator_id (seen ++ rest)) →
  (∀ id, id ∈ omap indicator_id rest → has_column df0 id = false) →
  agg_inv data df0 seen st →
  agg_inv data df0 (seen ++ rest) (foldl (aggregate_step data) st rest).
Proof.
  induction rest as [|ind rest IH]; intros seen st Hids Hnd Hfresh Hinv; simpl.
  - by rewrite app_nil_r.
  - destruct (Hids ind) as [id Hid]; [by left|].
    replace (seen ++ ind :: rest) with ((seen ++ [ind]) ++ rest) in *
      by (by rewrite <-app_assoc).
    apply IH.
    + intros; apply Hids; by right.
    + done.
    + intros id' Hin. apply Hfresh. simpl. rewrite Hid. by right.
    + apply (agg_inv_step seen st ind id); [done| |by apply Hfresh; simpl; rewrite Hid; left|done].
      rewrite !omap_app in Hnd. simpl in Hnd. rewrite Hid in Hnd.
      rewrite <-app_assoc in Hnd. apply NoDup_app in Hnd as (_ & Hnd & _).
      intros Hin. apply (Hnd id Hin). by left.
Qed.

End invariant.
End aggregate_loop.

Section aggregate_theorems.
Import Num Pandas module2.

Lemma round_row_other (r : gmap string cell) cols k :
  k ∉ cols → foldr (λ c r', alter round_cell c r') r cols !! k = r !! k.
Proof.
  induction cols as [|c cols IH]; intros Hk; [done|]. simpl.
  rewrite lookup_alter_ne; [|intros ->; apply Hk; by left].
  apply IH. intros ?; apply Hk; by right.
Qed.

Lemma round_row_zero (r : gmap string cell) cols k :
  r !! k = Some (CNum 0%Qc) →
  foldr (λ c r', alter round_cell c r') r cols !! k = Some (CNum 0%Qc).
Proof.
  intros Hk. induction cols as [|c cols IH]; [done|]. simpl.
  destruct (decide (c = k)) as [->|Hne].
  - rewrite lookup_alter_eq, IH. simpl. by rewrite round_dec_0.
  - by rewrite lookup_alter_ne.
Qed.

Lemma indicator_ids_closed (inds : list Indicator) :
  (∀ ind, ind ∈ inds → is_Some (indicator_id ind)) →
  traverse (λ ind, key (indicator_id ind)) inds = Ok (omap indicator_id inds).
Proof.
  induction inds as [|ind inds IH]; intros Hids; [done|].
  destruct (Hids ind) as [id Hid]; [by left|].
  cbn [traverse]. rewrite Hid. simpl. rewrite IH by (intros; apply Hids; by right).
  simpl. by rewrite Hid.
Qed.

Lemma elem_of_available df_process k :
  k ∈ available df_process ↔ has_exp_key df_process k.
Proof.
  unfold available, has_exp_key. rewrite elem_of_remove_dups, list_elem_of_fmap.
  split; intros (r & ? & ?); by exists r.
Qed.

Lemma init_experiments_closed data doe df_process cfg inds :
  data !! "doe" = Some (DFrame doe) → df_empty doe = false →
  has_column doe "exp_id" = true →
  data !! "df_process" = Some (DFrame df_process) → df_empty df_process = false →
  has_column df_process "exp_id" = true →
  data !! "indicators" = Some (DConfig cfg) → indicators cfg = Some inds →
  init_experiments data
  = Ok (if df_empty (restrict_to (available df_process) doe) then None
        else Some (restrict_to (available df_process) doe, inds)).
Proof.
  intros Hdoe Hne1 He1 Hproc Hne2 He2 Hcfg Hinds.
  unfold init_experiments, required_frame, required_indicators, get_column, EXP_ID_COLUMN.
  rewrite Hdoe, Hne1, Hproc, Hne2, Hcfg, Hinds. rewrite !bind_Ok, He2, bind_Ok.
  change (remove_dups (cell_at "exp_id" <$> rows df_process)) with (available df_process).
  destruct (available df_process) as [|k ks] eqn:Hav.
  2:{ rewrite He1, bind_Ok.
      destruct (df_empty (restrict_to (k :: ks) doe)); reflexivity. }
  unfold restrict_to, df_empty. cbn [rows columns].
  assert (filter (λ r, cell_at EXP_ID_COLUMN r ∈ []) (rows doe) = []) as ->.
  { induction (rows doe) as [|r rs IH]; [done|].
    rewrite filter_cons, decide_False; [done|]. apply not_elem_of_nil. }
  by rewrite orb_true_r.
Qed.

End aggregate_theorems.

Section aggregate_claims.
Import Num Pandas module2.

(** C1, as the code has it.  The table of experiments is the design
    table restricted to the experiment ids of [df_process]: every row of
    the design table whose experiment id occurs in [df_process] has a row
    in the aggregated table, and where the target table of an aggregated
    indicator has no row for an experiment, that experiment gets 0 for the
    indicator.  The indicators carry distinct ids, none of which is a
    column of the design table. *)
Theorem aggregation_keeps_experiments_of_df_process
    (data : gmap string DataValue) (doe df_process : DataFrame)
    (cfg : IndicatorsConfig) (inds : list Indicator) :
  data !! "doe" = Some (DFrame doe) → df_empty doe = false →
  has_column doe "exp_id" = true →
  data !! "df_process" = Some (DFrame df_process) → df_empty df_process = false →
  has_column df_process "exp_id" = true →
  data !! "indicators" = Some (DConfig cfg) → indicators cfg = Some inds →
  (∀ ind, ind ∈ inds → is_Some (indicator_id ind)) →
  NoDup (omap indicator_id inds) →
  (∀ id, id ∈ omap indicator_id inds → has_column doe id = false) →
  ∃ df', aggregate_to_experiment_level data = Ok df'
    ∧ (∀ r0, r0 ∈ rows doe → has_exp_key df_process (cell_at "exp_id" r0) →
         ∃ r', r' ∈ rows df' ∧ r' !! "exp_id" = r0 !! "exp_id")
    ∧ (∀ ind id target t r',
         ind ∈ inds → indicator_id ind = Some id →
         target_dataframe ind = Some target → data !! target = Some (DFrame t) →
         has_column df' id = true → r' ∈ rows df' →
         ¬ has_exp_key t (cell_at "exp_id" r') → r' !! id = Some (CNum 0%Qc)).
Proof.
  intros Hdoe Hne1 He1 Hproc Hne2 He2 Hcfg Hinds Hids Hnd Hfresh.
  unfold aggregate_to_experiment_level.
  rewrite (init_experiments_closed data doe df_process cfg inds) by done.
  rewrite bind_Ok.
  set (df0 := restrict_to (available df_process) doe).
  destruct (df_empty df0) eqn:Hempty.
  { (* no experiment of the design table is in df_process *)
    exists empty_frame. split; [done|]. split.
    - intros r0 Hr0 Hkey. exfalso.
      assert (r0 ∈ rows df0) as Hin.
      { unfold df0, restrict_to. cbn [rows]. apply list_elem_of_filter.
        split; [|done]. by apply elem_of_available. }
      unfold df_empty in Hempty. apply orb_true_iff in Hempty as [Hc|Hr].
      + apply bool_decide_eq_true in Hc. unfold df0, restrict_to in Hc. cbn [columns] in Hc.
        unfold df_empty in Hne1. apply orb_false_iff in Hne1 as [Hne1 _].
        apply bool_decide_eq_false in Hne1. done.
      + apply bool_decide_eq_true in Hr. rewrite Hr in Hin. by apply elem_of_nil in Hin.
    - intros ind id target t r' _ _ _ _ _ Hr'. by apply elem_of_nil in Hr'. }
  assert (has_column df0 EXP_ID_COLUMN = true) as He0 by done.
  pose proof (agg_inv_loop data df0 inds [] (df0, []) Hids Hnd Hfresh
                (agg_inv_init data df0 He0)) as Hinv.
  rewrite app_nil_l in Hinv.
  destruct (foldl (aggregate_step data) (df0, []) inds) as [df missing].
  destruct Hinv as (He & Hcols & Hdone & Hkeep & Hzero). simpl in He, Hcols, Hdone, Hkeep, Hzero.
  rewrite (indicator_ids_closed inds Hids), bind_Ok.
  set (cols := filter (λ id, id ∉ missing) (omap indicator_id inds)).
  assert (EXP_ID_COLUMN ∉ cols) as Hexp.
  { intros [_ Hin]%list_elem_of_filter. apply Hfresh in Hin.
    unfold EXP_ID_COLUMN in Hin. congruence. }
  (* the table before rounding already has the two properties *)
  assert (∀ r0, r0 ∈ rows doe → has_exp_key df_process (cell_at "exp_id" r0) →
            ∃ r, r ∈ rows df ∧ r !! "exp_id" = r0 !! "exp_id") as Hrows.
  { intros r0 Hr0 Hkey. apply Hkeep. unfold df0, restrict_to. cbn [rows].
    apply list_elem_of_filter. split; [|done]. by apply elem_of_available. }
  destruct cols as [|c cols'] eqn:Hcols_eq.
  { exists df. split; [done|]. split; [done|].
    intros ind id target t r' Hin Hid Htarget Ht Hc Hr' Hno. by eapply Hzero. }
  rewrite <-Hcols_eq in *. clear Hcols_eq c cols'.
  unfold round_columns.
  assert (forallb (has_column df) cols = true) as ->.
  { apply forallb_forall. intros id [Hmiss Hin]%list_elem_of_In%list_elem_of_filter.
    destruct (Hdone id Hin); done. }
  eexists. split; [done|]. cbn [rows columns]. split.
  - intros r0 Hr0 Hkey. destruct (Hrows r0 Hr0 Hkey) as (r & Hr & Heq).
    exists (foldr (λ c r', alter round_cell c r') r cols). split.
    + apply list_elem_of_fmap. by exists r.
    + by rewrite round_row_other.
  - intros ind id target t r' Hin Hid Htarget Ht Hc (r & -> & Hr)%list_elem_of_fmap Hno.
    apply round_row_zero. apply (Hzero ind id target t); try done.
    unfold cell_at in *. by rewrite round_row_other in Hno.
Qed.

End aggregate_claims.

Section aggregate_examples.
Import Num Pandas module2 AggregationScenario.

(** C1, as stated, fails: [exp003] is in the design table and in
    [df_product], but not in [df_process], and has no row in the
    aggregated table. *)
Lemma experiment_outside_df_process_is_dropped :
  (∃ r0, r0 ∈ rows sample_doe ∧ r0 !! "exp_id" = Some (CStr "exp003"))
  ∧ has_exp_key sample_df_product (CStr "exp003")
  ∧ ∃ df', aggregate_to_experiment_level data_without_exp003 = Ok df'
      ∧ ∀ r', r' ∈ rows df' → r' !! "exp_id" ≠ Some (CStr "exp003").
Proof.
  split_and!.
  - eexists. split; [apply (list_elem_of_lookup_2 _ 2%nat); reflexivity|reflexivity].
  - eexists. split; [apply (list_elem_of_lookup_2 _ 4%nat); reflexivity|reflexivity].
  - eexists. split; [vm_compute; reflexivity|].
    intros r' Hr'. cbn [rows] in Hr'. elem_cases Hr'; by vm_compute.
Qed.

End aggregate_examples.

(* ================================================================== *)
(** * The scenarios of the test suite, evaluated *)
(* ================================================================== *)

Section scenarios.
Import Num Pandas module2 module3 AggregationScenario.

(** [test_basic_aggregation_sum], [test_basic_aggregation_average] and
    [test_filters_to_available_experiments]. *)
Example aggregation_sum :
  column_of (aggregate_to_experiment_level data_without_exp003) "IND01"
  = [num 125 1; num 150 1].
Proof. compute_done. Qed.

Example aggregation_average :
  column_of (aggregate_to_experiment_level data_without_exp003) "IND03"
  = [num 218 100; num 195 100].
Proof. compute_done. Qed.

Example aggregation_experiments :
  column_of (aggregate_to_experiment_level data_without_exp003) "exp_id"
  = [Some (CStr "exp001"); Some (CStr "exp002")].
Proof. compute_done. Qed.

Example thresholds_all_pass :
  column_of (apply_threshold_filters df_three Scenario.sample_indicators_config)
            "IND01_in_threshold"
  = [Some (CBool true); Some (CBool true); Some (CBool true)].
Proof. compute_done. Qed.

Example normalized_minimize :
  column_of (normalize_indicators df_three Scenario.sample_indicators_config)
            "IND01_normalized"
  = [num 62 100; num 0 1; num 1 1].
Proof. compute_done. Qed.

Example normalized_maximize :
  column_of (normalize_indicators df_three Scenario.sample_indicators_config)
            "IND03_normalized"
  = [num 67 100; num 0 1; num 1 1].
Proof. compute_done. Qed.

(** One experiment above its threshold: it alone is infeasible, and its
    normalised value is negative. *)
Example threshold_violation :
  column_of (apply_threshold_filters Scenario.df_aggregated Scenario.sample_indicators_config)
            "is_feasible"
  = [Some (CBool true); Some (CBool false); Some (CBool true)].
Proof. compute_done. Qed.

Example violation_is_negative :
  column_of (normalize_indicators Scenario.df_aggregated Scenario.sample_indicators_config)
            "IND01_normalized"
  = [num 98 100; num (-56) 100; num 1 1].
Proof. compute_done. Qed.

(** Ties share a rank; the infeasible experiment has a [rank_all] and a
    null [rank]. *)
Example rank_all_with_ties :
  column_of (Ok (rank_experiments df_scored)) "rank_all"
  = [Some (nat_cell 2); Some (nat_cell 1); Some (nat_cell 2)].
Proof. compute_done. Qed.

Example rank_feasible_only :
  column_of (Ok (rank_experiments df_scored)) "rank"
  = [Some (nat_cell 1); Some CNaN; Some (nat_cell 1)].
Proof. compute_done. Qed.

(** With a category left out, the total is still the sum of the three
    weighted columns, and not the sum of the two category scores. *)
Example total_with_partial_categories :
  column_of (calculate_total_score df_weighted (mkConfig (Some partial_categories)) 2)
            "total_weighted_score"
  = [num 78 100; num 0 1; num 1 1]
  ∧ column_of (calculate_total_score df_weighted (mkConfig (Some partial_categories)) 2)
              "economic_score"
    = [num 30 100; num 0 1; num 30 100]
  ∧ column_of (calculate_total_score df_weighted (mkConfig (Some partial_categories)) 2)
              "environmental_score"
    = [num 14 100; num 0 1; num 20 100].
Proof. split_and!; compute_done. Qed.

End scenarios.

Section aggregate_witnesses.
Import Num Pandas module2 AggregationScenario.

Lemma aggregation_keeps_experiments_of_df_process_witness :
  ∃ df', aggregate_to_experiment_level data_without_exp003 = Ok df'
    ∧ (∀ r0, r0 ∈ rows sample_doe →
         has_exp_key df_process_without_exp003 (cell_at "exp_id" r0) →
         ∃ r', r' ∈ rows df' ∧ r' !! "exp_id" = r0 !! "exp_id").
Proof.
  destruct (aggregation_keeps_experiments_of_df_process
              data_without_exp003 sample_doe df_process_without_exp003
              Scenario.sample_indicators_config
              [Scenario.IND01; Scenario.IND02; Scenario.IND03])
    as (df' & Hdf & Hrows & _).
  - reflexivity.
  - reflexivity.
  - reflexivity.
  - reflexivity.
  - reflexivity.
  - reflexivity.
  - reflexivity.
  - reflexivity.
  - intros ind Hin. elem_cases Hin; by eexists.
  - compute_done.
  - intros id Hin. simpl in Hin. elem_cases Hin; reflexivity.
  - exists df'. by split.
Defined.



End aggregate_witnesses.

(* ================================================================== *)
(** * Formula evaluation and variable resolution *)
(* ================================================================== *)

Section evaluate_facts.
Import Num Pandas module1.





End evaluate_facts.

Section quality_facts.
Import Num Pandas module1.
Local Open Scope Qc_scope.

Lemma py_get_bound entry k dflt b :
  bound_or dflt (assoc k entry) = Some b →
  py_get (JDict entry) k (JNum dflt) = Ok (JNum b).
Proof.
  unfold py_get, bound_or. destruct (assoc k entry) as [[]|]; simpl; intros; by simplify_eq.
Qed.

Lemma in_quality_range_spec quality entry lo hi :
  bound_or 0 (assoc "quality_min" entry) = Some lo →
  bound_or 1 (assoc "quality_max" entry) = Some hi →
  in_quality_range (CNum quality) (JDict entry)
  = Ok (bool_decide (lo ≤ quality ∧ quality ≤ hi)).
Proof.
  intros Hlo Hhi. unfold in_quality_range, QUALITY_MIN, QUALITY_MAX.
  rewrite (py_get_bound entry _ _ lo Hlo), bind_Ok.
  rewrite (py_get_bound entry _ _ hi Hhi), bind_Ok.
  cbn [py_le_json_cell py_le_cell_json json_num]. rewrite bind_Ok.
  destruct (decide (lo ≤ quality)) as [H1|H1].
  - rewrite (bool_decide_eq_true_2 _ H1). f_equal. apply bool_decide_ext. tauto.
  - rewrite (bool_decide_eq_false_2 _ H1). f_equal. symmetry.
    apply bool_decide_eq_false. tauto.
Qed.

(** The first entry that contains the quality wins. *)
Lemma first_in_range_spec quality value_key before entry after :
  (∀ b, b ∈ before → numeric_bounds b ∧ ¬ contains_quality quality b) →
  contains_quality quality entry →
  first_in_range (CNum quality) value_key (JDict <$> (before ++ entry :: after))
  = Ok (default (JNum 0) (assoc value_key entry)).
Proof.
  intros Hbefore (lo & hi & Hlo & Hhi & Hle).
  induction before as [|b before IH].
  - cbn [app fmap list_fmap first_in_range].
    rewrite (in_quality_range_spec quality entry lo hi Hlo Hhi), bind_Ok.
    by rewrite bool_decide_eq_true_2.
  - destruct (Hbefore b) as [[[lo' Hlo'] [hi' Hhi']] Hno]; [by left|].
    rewrite <-app_comm_cons, fmap_cons. cbn [first_in_range].
    rewrite (in_quality_range_spec quality b lo' hi' Hlo' Hhi'), bind_Ok.
    rewrite bool_decide_eq_false_2.
    + apply IH. intros; apply Hbefore; by right.
    + intros Hin. apply Hno. by exists lo', hi'.
Qed.

Lemma find_component_spec step_name found pre component post :
  (∀ c, c ∈ pre → other_component step_name c) →
  this_component step_name component →
  find_component step_name found (pre ++ component :: post) = found component.
Proof.
  intros Hpre (name & Hname & Heq).
  induction pre as [|c pre IH].
  - cbn [app find_component]. unfold COMPONENT_NAME. by rewrite Hname, bind_Ok, Heq.
  - destruct (Hpre c) as (name' & Hname' & Hne); [by left|].
    rewrite <-app_comm_cons. cbn [find_component]. unfold COMPONENT_NAME.
    rewrite Hname', bind_Ok, Hne. apply IH. intros; apply Hpre; by right.
Qed.

(** C10.  In the [quality_range] and the [quality_threshold] lookup alike,
    an entry without [quality_min] has lower bound 0, one without
    [quality_max] has upper bound 1, the test [q_min <= quality <= q_max]
    includes both ends, and the value returned is that of the first entry,
    in table order, which contains the quality. *)
Theorem quality_lookup_first_inclusive_range
    (row : gmap string cell) (var_name : string) (var_config : VarConfig)
    (data : Data) (attr_structure : gmap string string)
    (attr_file lookup quality_col path value_name : string)
    (step_name : cell) (quality : Qc) (table : json)
    (pre post : list json) (component : json)
    (before after : list (list (string * json))) (entry : list (string * json)) :
  file var_config = Some attr_file →
  lookup_column var_config = Some lookup →
  quality_column var_config = Some quality_col →
  value_path var_config = Some path →
  value_key var_config = Some value_name →
  row !! lookup = Some step_name →
  row !! quality_col = Some (CNum quality) →
  attribute_table data attr_structure "product" = Ok table →
  py_iter table = Ok (pre ++ component :: post) →
  (∀ c, c ∈ pre → other_component step_name c) →
  this_component step_name component →
  (∀ b, b ∈ before → numeric_bounds b ∧ ¬ contains_quality quality b) →
  contains_quality quality entry →
  (source var_config = Some "quality_range" →
   walk_path (JList []) (split_dot path) component
     = Ok (JList (JDict <$> (before ++ entry :: after))) →
   get_variable_value row var_name var_config data attr_structure
   = Ok (VJson (default (JNum 0) (assoc value_name entry))))
  ∧ (∀ options,
       source var_config = Some "quality_threshold" →
       py_get component path (JDict []) = Ok (JDict options) →
       options.*2 = JDict <$> (before ++ entry :: after) →
       get_variable_value row var_name var_config data attr_structure
       = Ok (VJson (default (JNum 0) (assoc value_name entry)))).
Proof.
  intros Hfile Hlookup Hqcol Hpath Hvalue Hstep Hquality Htable Hiter Hpre Hcomp
         Hbefore Hentry.
  split.
  - intros Hsource Hwalk. unfold get_variable_value.
    rewrite Hsource. cbn [key]. rewrite bind_Ok.
    rewrite decide_False by done. rewrite decide_False by done.
    rewrite decide_True by done.
    rewrite Hfile, Hlookup, Hqcol, Hpath, Hvalue. cbn [key]. rewrite !bind_Ok.
    unfold row_get. rewrite Hstep, Hquality. cbn [key]. rewrite !bind_Ok.
    unfold TABLE_PRODUCT. rewrite Htable, bind_Ok, Hiter, bind_Ok.
    rewrite (find_component_spec step_name _ pre component post Hpre Hcomp).
    rewrite Hwalk, bind_Ok.
    by rewrite (first_in_range_spec quality value_name before entry after Hbefore Hentry).
  - intros options Hsource Hget Hoptions. unfold get_variable_value.
    rewrite Hsource. cbn [key]. rewrite bind_Ok.
    rewrite decide_False by done. rewrite decide_False by done.
    rewrite decide_False by done. rewrite decide_True by done.
    rewrite Hfile, Hlookup, Hqcol, Hpath, Hvalue. cbn [key]. rewrite !bind_Ok.
    unfold row_get. rewrite Hstep, Hquality. cbn [key]. rewrite !bind_Ok.
    unfold TABLE_PRODUCT. rewrite Htable, bind_Ok, Hiter, bind_Ok.
    rewrite (find_component_spec step_name _ pre component post Hpre Hcomp).
    rewrite Hget, bind_Ok. cbn [py_items]. rewrite bind_Ok, Hoptions.
    by rewrite (first_in_range_spec quality value_name before entry after Hbefore Hentry).
Qed.

End quality_facts.

Section resolver_examples.
Import Num Pandas module1 ResolverScenario.

Example simple_formula :
  evaluate_formula_for_row sample_row (Parsed (EMul (EVar "time") (EVar "cost")))
                           time_and_cost sample_data attr_structure
  = Some (Scenario.dec 50 1).
Proof. compute_done. Qed.

Example formula_with_division :
  evaluate_formula_for_row sample_row (Parsed (EDiv (EVar "time") (EVar "cost")))
                           time_and_cost sample_data attr_structure
  = Some (Scenario.dec 2 1).
Proof. compute_done. Qed.

Example formula_rounding :
  evaluate_formula_for_row sample_row (Parsed (EDiv (EVar "time") (ENum (Scenario.dec 3 1))))
                           time_and_cost sample_data attr_structure
  = Some (Scenario.dec 333 100).
Proof. compute_done. Qed.

Example formula_with_missing_variable :
  evaluate_formula_for_row sample_row (Parsed (EMul (EVar "time") (EVar "missing_var")))
                           time_and_missing sample_data attr_structure
  = Some (Scenario.dec 0 1).
Proof. compute_done. Qed.

Example formula_division_by_zero :
  evaluate_formula_for_row sample_row (Parsed (EDiv (EVar "time") (EVar "missing_var")))
                           time_and_missing sample_data attr_structure
  = Some (Scenario.dec 0 1).
Proof. compute_done. Qed.

Example attribute_file_process :
  json_of (get_variable_value sample_row "v"
             (from_attribute "attributes_process.json" ["step_name"] "disassembly_time")
             sample_data attr_structure)
  = Some (Scenario.dec 15 1).
Proof. compute_done. Qed.

Example attribute_file_product_fixed :
  json_of (get_variable_value sample_row "v"
             (from_attribute "attributes_product.json" ["step_name"]
                             "fixed_attributes.weight.value")
             sample_data attr_structure)
  = Some (Scenario.dec 3 1).
Proof. compute_done. Qed.

(** A quality on the boundary of two ranges belongs to the first one. *)
Example quality_range_boundary :
  json_of (get_variable_value sample_row "v"
             (from_quality "quality_range" "quality_dependent_attributes.component_value"
                           "value")
             sample_data attr_structure)
  = Some (Scenario.dec 75 1).
Proof. compute_done. Qed.

Example quality_threshold_first_option :
  json_of (get_variable_value sample_row "v"
             (from_quality "quality_threshold" "end_of_life_options" "circularity_rating")
             sample_data attr_structure)
  = Some (Scenario.dec 6 10).
Proof. compute_done. Qed.

Example missing_source_key :
  get_variable_value sample_row "v" no_config sample_data attr_structure = Raise KeyError.
Proof. reflexivity. Qed.

Example unknown_source_type :
  get_variable_value sample_row "v"
    (mkVarConfig (Some "unknown_source_type") None None None None None None None)
    sample_data attr_structure
  = Raise ValueError.
Proof. reflexivity. Qed.

(** An entry without bounds covers the qualities from 0 to 1, both ends
    included, and nothing else. *)
Example missing_bounds_default :
  in_quality_range (CNum (Scenario.dec 0 1)) (JDict [("value", jnum 42 1)]) = Ok true
  ∧ in_quality_range (CNum (Scenario.dec 1 1)) (JDict [("value", jnum 42 1)]) = Ok true
  ∧ in_quality_range (CNum (Scenario.dec 11 10)) (JDict [("value", jnum 42 1)]) = Ok false
  ∧ in_quality_range (CNum (Scenario.dec (-1) 10)) (JDict [("value", jnum 42 1)]) = Ok false.
Proof. split_and!; by vm_compute. Qed.

End resolver_examples.

Section resolver_witnesses.
Import Num Pandas module1 ResolverScenario.
Local Open Scope Qc_scope.


Lemma quality_lookup_first_inclusive_range_witness :
  get_variable_value sample_row "v"
    (from_quality "quality_range" "quality_dependent_attributes.component_value" "value")
    sample_data attr_structure
  = Ok (VJson (jnum 75 1))
  ∧ get_variable_value sample_row "v"
      (from_quality "quality_threshold" "end_of_life_options" "circularity_rating")
      sample_data attr_structure
    = Ok (VJson (jnum 6 10)).
Proof.
  split.
  - apply (quality_lookup_first_inclusive_range sample_row "v"
             (from_quality "quality_range" "quality_dependent_attributes.component_value"
                           "value")
             sample_data attr_structure
             "attributes_product.json" "step_name" "component_quality"
             "quality_dependent_attributes.component_value" "value"
             (CStr "comp_B") (Scenario.dec 5 10) (JList [comp_A; comp_B])
             [comp_A] [] comp_B
             [] [range_fields (jnum 5 10) (jnum 1 1) (jnum 150 1) "value"]
             (range_fields (jnum 0 1) (jnum 5 10) (jnum 75 1) "value"));
      try reflexivity.
    + intros c Hc. apply list_elem_of_singleton in Hc as ->.
      exists (JStr "comp_A"). by split.
    + exists (JStr "comp_B"). by split.
    + intros b Hb. by apply elem_of_nil in Hb.
    + exists (Scenario.dec 0 1), (Scenario.dec 5 10). by split_and!.
  - apply (quality_lookup_first_inclusive_range sample_row "v"
             (from_quality "quality_threshold" "end_of_life_options" "circularity_rating")
             sample_data attr_structure
             "attributes_product.json" "step_name" "component_quality"
             "end_of_life_options" "circularity_rating"
             (CStr "comp_B") (Scenario.dec 5 10) (JList [comp_A; comp_B])
             [comp_A] [] comp_B
             [] [range_fields (jnum 7 10) (jnum 1 1) (jnum 95 100) "circularity_rating"]
             (range_fields (jnum 0 1) (jnum 7 10) (jnum 6 10) "circularity_rating"))
      with (options :=
              [ ("recycle", range (jnum 0 1) (jnum 7 10) (jnum 6 10) "circularity_rating");
                ("remanufacture",
                  range (jnum 7 10) (jnum 1 1) (jnum 95 100) "circularity_rating") ]);
      try reflexivity.
    + intros c Hc. apply list_elem_of_singleton in Hc as ->.
      exists (JStr "comp_A"). by split.
    + exists (JStr "comp_B"). by split.
    + intros b Hb. by apply elem_of_nil in Hb.
    + exists (Scenario.dec 0 1), (Scenario.dec 7 10). by split_and!.
Defined.

End resolver_witnesses.
